(** * HTTP proxy (proxy.c): a shallow embedding and its properties

    The development follows [proxy.c]: the error responder [clienterror],
    the per-connection handler [doit], its wrapper [thread] and the start of
    [main].  Text is [string] (a sequence of 8-bit characters, so
    [String.length] is a byte length), file descriptors are [Z] as the C
    [int]s they are, and every system call a handler makes is recorded, in
    order, in a trace of [event]s.

    [csapp.h] and [http_parser.h] are not part of the sources: the two buffer
    sizes and the parser are interfaces ([csapp_limits], [http_parser]) that
    every definition and every general theorem is parametric in. *)

From Stdlib Require Import String Ascii List ZArith Lia Bool Arith.
From Stdlib Require Import DecimalString DecimalNat DecimalZ.
Import ListNotations.

Open Scope list_scope.
Open Scope string_scope.

(** ** Strings as C uses them *)

Definition CR : ascii := "013"%char.
Definition LF : ascii := "010"%char.
Definition DQUOTE : ascii := "034"%char.

(** The two-byte line terminator, written ["\r\n"] in the C source. *)
Definition CRLF : string := String CR (String LF "").

(** [%zu] of [printf]: an unsigned decimal numeral without padding. *)
Definition zu (n : nat) : string := NilEmpty.string_of_uint (Nat.to_uint n).

(** The first [n] bytes of a stream and what follows them. *)
Fixpoint take (n : nat) (s : string) {struct s} : string :=
  match n, s with
  | S n', String c s' => String c (take n' s')
  | _, _ => ""
  end.

Fixpoint drop (n : nat) (s : string) {struct s} : string :=
  match n, s with
  | S n', String _ s' => drop n' s'
  | _, _ => s
  end.

(** [strcat] over a list of pieces. *)
Fixpoint cat (l : list string) : string :=
  match l with
  | [] => ""
  | s :: l' => s ++ cat l'
  end.

(** ** The interfaces taken from headers that are not in the sources *)

(** [MAXLINE] and [MAXBUF] of [csapp.h]. *)
Class csapp_limits := {
  MAXLINE : nat;
  MAXBUF : nat
}.

(** The transfer buffer of the relay, [#define MAX_OBJECT_SIZE (100 * 1024)]. *)
Definition MAX_OBJECT_SIZE : nat := 100 * 1024.

Inductive parser_state := REQUEST | HEADER | ERROR.

Inductive parser_field := METHOD | HOST | SCHEME | URI | PORT | PATH | HTTP_VERSION.

Record header_t := mk_header { name : string; value : string }.

(** [http_parser.h].  The parser object is mutated in place by the C library;
    here every operation that changes it returns the new object.
    [parser_retrieve] answers [None] where the C function returns a negative
    error code, and [parser_retrieve_next_header] answers [None] for [NULL]. *)
Class http_parser := {
  parser_t : Type;
  parser_new : parser_t;
  parser_parse_line : parser_t -> string -> parser_t * parser_state;
  parser_retrieve : parser_t -> parser_field -> option string;
  parser_retrieve_next_header : parser_t -> parser_t * option header_t
}.

(** What a run of the handler ends in.  [Fault] stands for the undefined
    behaviour of the C program (a [sprintf] or [strcat] past the end of its
    buffer, a [NULL] header dereferenced); [Starved] says that a loop of the
    model used up its bound, which the bounds chosen in [doit] exclude
    ([other_headers_fed], [relay_fed]). *)
Inductive outcome (A : Type) :=
| Ok (a : A)
| Fault
| Starved.
Arguments Ok {A} a.
Arguments Fault {A}.
Arguments Starved {A}.

Definition parser_state_eqb (a b : parser_state) : bool :=
  match a, b with
  | REQUEST, REQUEST | HEADER, HEADER | ERROR, ERROR => true
  | _, _ => false
  end.

(** ** What a handler does to the outside world *)

Inductive event :=
| EvWrite (fd : Z) (data : string)        (* rio_writen(fd, data, len) *)
| EvConnect (host port : string)          (* open_clientfd(host, port) *)
| EvClose (fd : Z).                       (* close(fd) *)

Definition trace := list event.

(** The peers of one connection: the bytes the client sends before it stops
    sending, whether writes to the client succeed, the descriptor (negative on
    failure) [open_clientfd] answers for a host and port, whether the write to
    the origin succeeds, and the bytes the origin answers to a request before
    it closes. *)
Record world := mk_world {
  client_in : string;
  client_up : bool;
  open_clientfd : string -> string -> Z;
  origin_up : bool;
  origin_out : string -> string
}.

(** All bytes passed to [rio_writen] on descriptor [fd], in order. *)
Fixpoint written (fd : Z) (t : trace) : string :=
  match t with
  | [] => ""
  | EvWrite fd' data :: t' =>
      if Z.eqb fd' fd then data ++ written fd t' else written fd t'
  | _ :: t' => written fd t'
  end.

(** How many times [close(fd)] is called. *)
Fixpoint closes (fd : Z) (t : trace) : nat :=
  match t with
  | [] => 0
  | EvClose fd' :: t' => (if Z.eqb fd' fd then 1 else 0) + closes fd t'
  | _ :: t' => closes fd t'
  end.

(** The connection attempts, in order. *)
Fixpoint connects (t : trace) : list (string * string) :=
  match t with
  | [] => []
  | EvConnect h p :: t' => (h, p) :: connects t'
  | _ :: t' => connects t'
  end.

(** ** The line reader

    Modelled from the spec: [rio_readlineb] of csapp.c, which is not in the
    sources.  It reads up to and including the next line feed, or until
    [maxlen - 1] bytes are read, or until the stream ends, and fails on the
    end of the stream with no data. *)
Fixpoint readline_upto (k : nat) (rp : string) : string * string :=
  match k, rp with
  | S k', String c rest =>
      if Ascii.eqb c LF then (String c "", rest)
      else let (l, r) := readline_upto k' rest in (String c l, r)
  | _, _ => ("", rp)
  end.

Definition rio_readlineb (rp : string) (maxlen : nat) : option (string * string) :=
  match readline_upto (maxlen - 1) rp with
  | ("", _) => None
  | (buf, rp') => Some (buf, rp')
  end.

(** Modelled from the spec: [rio_readnb] of csapp.c, which is not in the
    sources.  It reads [n] bytes, fewer only when the stream ends first;
    the answer is the bytes read (their count is the C return value) and the
    rest of the stream. *)
Definition rio_readnb (rp : string) (n : nat) : string * string :=
  (take n rp, drop n rp).

(** [sprintf] and [strcat] into a buffer of [cap] bytes: the text and its
    terminating zero byte must fit, anything longer runs past the buffer. *)
Definition sprintf (cap : nat) (s : string) : option string :=
  if (String.length s <? cap)%nat then Some s else None.

Definition strcat (cap : nat) (dst src : string) : option string :=
  sprintf cap (dst ++ src).

Notation "'have' p <- e 'orelse' r ; k" :=
  (match e with Some p => k | None => r end)
  (at level 10, p pattern, e at level 100, r at level 100, k at level 200,
   format "'[v' 'have'  p  <-  e  'orelse'  r ; '/' k ']'").

(** ** The fixed strings of proxy.c *)

Definition header_user_agent : string :=
  "User-Agent: Mozilla/5.0" ++ " (X11; Linux x86_64; rv:3.10.0)" ++
  " Gecko/20230411 Firefox/63.0." ++ CRLF.
Definition header_conn : string := "Connection: close" ++ CRLF.
Definition header_proxy : string := "Proxy-Connection: close" ++ CRLF.
Definition default_version : string := "HTTP/1.0" ++ CRLF.
Definition default_port : string := "80".

(** ** [clienterror] *)

(** The body template, [%s] replaced by the three arguments. *)
Definition error_body (errnum shortmsg longmsg : string) : string :=
  cat [ "<!DOCTYPE html>"; CRLF;
        "<html>"; CRLF;
        "<head><title>Tiny Error</title></head>"; CRLF;
        "<body bgcolor="; String DQUOTE "ffffff"; String DQUOTE ">"; CRLF;
        "<h1>"; errnum; ": "; shortmsg; "</h1>"; CRLF;
        "<p>"; longmsg; "</p>"; CRLF;
        "<hr /><em>The Tiny Web server</em>"; CRLF;
        "</body></html>"; CRLF ].

(** The header template, [%s %s %zu]. *)
Definition error_headers (errnum shortmsg : string) (bodylen : nat) : string :=
  cat [ "HTTP/1.0 "; errnum; " "; shortmsg; CRLF;
        "Content-Type: text/html"; CRLF;
        "Content-Length: "; zu bodylen; CRLF; CRLF ].

(** One header as [doit] prints it, ["%s: %s\r\n"]. *)
Definition header_text (h : header_t) : string :=
  cat [name h; ": "; value h; CRLF].

(** The test that drops a client header: [strcmp] against the four names. *)
Definition managed (header : header_t) : bool :=
  (name header =? "Host") || (name header =? "User-Agent") ||
  (name header =? "Connection") || (name header =? "Proxy-Connection").

Definition passed (hs : list header_t) : list header_t :=
  filter (fun h => negb (managed h)) hs.

(** The headers of the outbound request as name and value: the four the
    proxy sets, then the client's that are passed on. *)
Definition outbound_headers (host port : string) (hs : list header_t)
    : list header_t :=
  mk_header "Host" (cat [host; ":"; port]) ::
  mk_header "User-Agent"
    "Mozilla/5.0 (X11; Linux x86_64; rv:3.10.0) Gecko/20230411 Firefox/63.0." ::
  mk_header "Connection" "close" ::
  mk_header "Proxy-Connection" "close" ::
  passed hs.

(** The outbound request in one piece. *)
Definition outbound (path host port : string) (hs : list header_t) : string :=
  cat ["GET "; path; " HTTP/1.0"; CRLF] ++
  cat (map header_text (outbound_headers host port hs)) ++ CRLF.

(** The headers of a list that carry the name [n]. *)
Definition named (n : string) (hs : list header_t) : list header_t :=
  filter (fun h => name h =? n) hs.

(** Why the header loop of [doit] stops. *)
Inductive stop :=
| AtEof            (* no more line to read *)
| AtBlank          (* the blank line *)
| AtMalformed      (* a line the parser does not take for a header *)
| AtNull           (* no header to retrieve after a line parsed as one *)
| AtBound.         (* the bound on the rounds of the model *)

Section Proxy.

Context {limits : csapp_limits} {parser : http_parser}.
Variable w : world.

(** [snprintf] answers the length the whole text would have; both lengths are
    checked against the buffers before anything is written.  A failed write
    of the headers gives up before the body. *)
Definition clienterror (fd : Z) (errnum shortmsg longmsg : string) : trace :=
  let body := error_body errnum shortmsg longmsg in
  let bodylen := String.length body in
  if (MAXBUF <=? bodylen)%nat then []
  else
    let buf := error_headers errnum shortmsg bodylen in
    let buflen := String.length buf in
    if (MAXLINE <=? buflen)%nat then []
    else if negb (client_up w) then [EvWrite fd buf]
    else [EvWrite fd buf; EvWrite fd body].

(** The loop "Other headers" of [doit].  It goes round once for each line
    read; [fuel] bounds the number of rounds.  The answer is the request text
    so far and what is left unread of the client's stream. *)
Fixpoint other_headers (fuel : nat) (client_fd : Z) (p : parser_t)
    (rp request : string) : trace * outcome (string * string) :=
  match fuel with
  | O => ([], Starved)
  | S fuel' =>
      have (buf, rp') <- rio_readlineb rp MAXLINE orelse ([], Ok (request, rp));
      if buf =? CRLF then ([], Ok (request, rp'))
      else
        let (p', parse_state) := parser_parse_line p buf in
        if negb (parser_state_eqb parse_state HEADER) then
          (clienterror client_fd "400" "Bad Request"
             "Proxy could not parse request headers", Ok (request, rp'))
        else
          let (p'', next) := parser_retrieve_next_header p' in
          have header <- next orelse ([], Fault);
          if negb (managed header) then
            have hdr <- sprintf MAXLINE (header_text header)
              orelse ([], Fault);
            have request' <- strcat MAXBUF request hdr orelse ([], Fault);
            other_headers fuel' client_fd p'' rp' request'
          else other_headers fuel' client_fd p'' rp' request
  end.

(** The loop that copies the origin's answer to the client, one buffer of
    [bufsize] bytes at a time; the result of [rio_writen] is not looked at. *)
Fixpoint relay (fuel : nat) (client_fd : Z) (bufsize : nat) (srp : string)
    : option trace :=
  match fuel with
  | O => None
  | S fuel' =>
      let (server_buf, srp') := rio_readnb srp bufsize in
      let m := String.length server_buf in
      if (0 <? m)%nat then
        have t <- relay fuel' client_fd bufsize srp' orelse None;
        Some (EvWrite client_fd server_buf :: t)
      else Some []
  end.

(** [doit]: read and check the request line, build the outbound request,
    dial the origin, send the request and relay the answer.  The answer is
    the trace of the calls made and the value returned.  [parser_free],
    [printf] and [fprintf(stderr, ...)] leave no event. *)
Definition doit (client_fd : Z) : trace * outcome Z :=
  have (buf, rp) <- rio_readlineb (client_in w) MAXLINE
    orelse ([EvClose client_fd], Ok (-1)%Z);
  (* Parse the request line and check if it's well-formed *)
  let (p, parse_state) := parser_parse_line parser_new buf in
  if negb (parser_state_eqb parse_state REQUEST) then
    ((clienterror client_fd "400" "Bad Request"
        "Proxy received a malformed request" ++ [EvClose client_fd])%list,
     Ok (-1)%Z)
  else
  have method <- parser_retrieve p METHOD
    orelse ([EvClose client_fd], Ok (-1)%Z);
  if negb (method =? "GET") then
    ((clienterror client_fd "501" "Not Implemented"
        "Proxy does not implement this method" ++ [EvClose client_fd])%list,
     Ok (-1)%Z)
  else
  have host <- parser_retrieve p HOST
    orelse ([EvClose client_fd], Ok (-1)%Z);
  have path <- parser_retrieve p PATH
    orelse ([EvClose client_fd], Ok (-1)%Z);
  let port :=
    match parser_retrieve p PORT with
    | Some port => port
    | None => default_port
    end in
  (* Create HTTP Request, add mandatory headers *)
  have request <- sprintf MAXBUF (cat [method; " "; path; " "; default_version])
    orelse ([], Fault);
  have host_header <- sprintf MAXLINE (cat ["Host: "; host; ":"; port; CRLF])
    orelse ([], Fault);
  have request <- strcat MAXBUF request host_header orelse ([], Fault);
  have request <- strcat MAXBUF request header_user_agent orelse ([], Fault);
  have request <- strcat MAXBUF request header_conn orelse ([], Fault);
  have request <- strcat MAXBUF request header_proxy orelse ([], Fault);
  (* Other headers *)
  match other_headers (S (String.length rp)) client_fd p rp request with
  | (t, Fault) => (t, Fault)
  | (t, Starved) => (t, Starved)
  | (t, Ok (request, _)) =>
  have request <- strcat MAXBUF request CRLF orelse (t, Fault);
  (* Forward request to server *)
  let serverfd := open_clientfd w host port in
  if (serverfd <? 0)%Z then
    ((t ++ [EvConnect host port] ++
        clienterror client_fd "400" "Bad Request"
          "Proxy could not parse request headers" ++ [EvClose serverfd])%list,
     Ok (-1)%Z)
  else
  (* Send request to server *)
  if negb (origin_up w) then
    ((t ++ [EvConnect host port; EvWrite serverfd request;
            EvClose serverfd])%list,
     Ok (-1)%Z)
  else
  let srp := origin_out w request in
  have t' <- relay (S (String.length srp)) client_fd MAX_OBJECT_SIZE srp
    orelse ((t ++ [EvConnect host port; EvWrite serverfd request])%list,
            Starved);
  ((t ++ [EvConnect host port; EvWrite serverfd request] ++ t' ++
      [EvClose serverfd])%list,
   Ok 0%Z)
  end.

(** The header lines the loop of [doit] takes from the client, and where it
    stops: the reads and the parser calls of [other_headers], without the
    request text ([other_headers_spec] relates the two). *)
Fixpoint client_headers (fuel : nat) (p : parser_t) (rp : string)
    : list header_t * stop * string :=
  match fuel with
  | O => ([], AtBound, rp)
  | S fuel' =>
      have (buf, rp') <- rio_readlineb rp MAXLINE orelse ([], AtEof, rp);
      if buf =? CRLF then ([], AtBlank, rp')
      else
        let (p', parse_state) := parser_parse_line p buf in
        if negb (parser_state_eqb parse_state HEADER) then
          ([], AtMalformed, rp')
        else
          let (p'', next) := parser_retrieve_next_header p' in
          have header <- next orelse ([], AtNull, rp');
          let '(hs, s, r) := client_headers fuel' p'' rp' in
          (header :: hs, s, r)
  end.

(** What the loop writes to the client when it stops. *)
Definition stop_trace (client_fd : Z) (s : stop) : trace :=
  match s with
  | AtMalformed =>
      clienterror client_fd "400" "Bad Request"
        "Proxy could not parse request headers"
  | _ => []
  end.

(** [thread]: run the handler, then close the client's descriptor. *)
Definition thread (client_fd : Z) : trace * outcome unit :=
  match doit client_fd with
  | (t, Ok _) => ((t ++ [EvClose client_fd])%list, Ok tt)
  | (t, Fault) => (t, Fault)
  | (t, Starved) => (t, Starved)
  end.

End Proxy.

(** ** The start of [main]

    What [main] does before it enters the accept loop: the events, and the
    exit status when it exits ([None] when it goes on to accept
    connections).  [listen] stands for [open_listenfd]. *)
Inductive main_event :=
| MIgnoreSigpipe                      (* signal(SIGPIPE, SIG_IGN) *)
| MStderr (text : string)             (* fprintf(stderr, ...) *)
| MListen (port : string)             (* open_listenfd(port) *)
| MClose (fd : Z).                    (* close(fd) *)

Definition main (listen : string -> Z) (argc : Z) (argv : list string)
    : list main_event * option Z :=
  if negb (argc =? 2)%Z then
    ([MIgnoreSigpipe;
      MStderr (cat ["usage: "; nth 0 argv ""; " <port>"; String LF ""])],
     Some 0%Z)
  else
    let listenfd := listen (nth 1 argv "") in
    if (listenfd <? 0)%Z then
      ([MIgnoreSigpipe; MListen (nth 1 argv "");
        MStderr (cat ["Failed to listen on port: "; nth 1 argv ""; String LF ""]);
        MClose listenfd],
       Some 1%Z)
    else ([MIgnoreSigpipe; MListen (nth 1 argv "")], None).

(** The sockets [main] has tried to bind. *)
Fixpoint listens (t : list main_event) : list string :=
  match t with
  | [] => []
  | MListen port :: t' => port :: listens t'
  | _ :: t' => listens t'
  end.

(** ** A parser and buffer sizes to run the handler on *)

(** The sizes of the [csapp.h] that comes with CS:APP. *)
Definition csapp_8k : csapp_limits := {| MAXLINE := 8 * 1024; MAXBUF := 8 * 1024 |}.

(** Modelled from the spec: the states and the line shapes of the request
    parser (sections 4.2 and 6); the instance [spec_parser] below puts the
    operations together. *)
Module SpecParser.

Inductive phase := Start | AwaitingHeader | Done | Failed.

Record t := mk {
  at_phase : phase;
  p_method : option string;
  p_host : option string;
  p_port : option string;
  p_path : option string;
  p_version : option string;
  p_headers : list header_t            (* parsed, not yet handed out *)
}.

Definition fresh : t := mk Start None None None None None [].

(** [s] without its final CRLF, if it ends in one. *)
Fixpoint chomp (s : string) : option string :=
  match s with
  | "" => None
  | String a s' =>
      if (s' =? String LF "") && Ascii.eqb a CR then Some ""
      else option_map (String a) (chomp s')
  end.

(** [s] cut at the first [c]. *)
Fixpoint split_on (c : ascii) (s : string) : option (string * string) :=
  match s with
  | "" => None
  | String a s' =>
      if Ascii.eqb a c then Some ("", s')
      else option_map (fun '(l, r) => (String a l, r)) (split_on c s')
  end.

Fixpoint has_char (c : ascii) (s : string) : bool :=
  match s with
  | "" => false
  | String a s' => Ascii.eqb a c || has_char c s'
  end.

Definition token (s : string) : bool :=
  negb (s =? "") && negb (has_char " " s).

(** [host[:port]]. *)
Definition authority (s : string) : option (string * option string) :=
  match split_on ":" s with
  | Some (h, p) => if token h && token p then Some (h, Some p) else None
  | None => if token s then Some (s, None) else None
  end.

(** The request target: a path, or an absolute URI whose authority is taken
    out and whose path is kept. *)
Definition target (s : string) : option (option (string * option string) * string) :=
  if String.prefix "http://" s then
    let rest := drop 7 s in
    match split_on "/" rest with
    | Some (a, p) => option_map (fun hp => (Some hp, String "/" p)) (authority a)
    | None => option_map (fun hp => (Some hp, "/")) (authority rest)
    end
  else if String.prefix "/" s then Some (None, s)
  else None.

Definition request_line (line : string) : option t :=
  have l <- chomp line orelse None;
  have (m, l1) <- split_on " " l orelse None;
  have (tg, v) <- split_on " " l1 orelse None;
  have (auth, path) <- target tg orelse None;
  if token m && token v && String.prefix "HTTP/" v then
    Some (mk AwaitingHeader (Some m)
            (option_map fst auth)
            (match auth with Some (_, q) => q | None => None end)
            (Some path) (Some v) [])
  else None.

Definition header_line (line : string) : option header_t :=
  have l <- chomp line orelse None;
  have (n, rest) <- split_on ":" l orelse None;
  match rest with
  | String " " v => if token n then Some (mk_header n v) else None
  | _ => None
  end.

(** A [Host] header supplies the host, and the port after it, when the
    request line had no authority. *)
Definition observe_host (p : t) (h : header_t) : t :=
  match p_host p with
  | Some _ => p
  | None =>
      if name h =? "Host" then
        match authority (value h) with
        | Some (host, port) =>
            mk (at_phase p) (p_method p) (Some host)
               (match p_port p with Some q => Some q | None => port end)
               (p_path p) (p_version p) (p_headers p)
        | None => p
        end
      else p
  end.

Definition fail (p : t) : t * parser_state :=
  (mk Failed (p_method p) (p_host p) (p_port p) (p_path p) (p_version p)
      (p_headers p), ERROR).

Definition parse_line (p : t) (line : string) : t * parser_state :=
  match at_phase p with
  | Start =>
      match request_line line with
      | Some p' => (p', REQUEST)
      | None => fail p
      end
  | AwaitingHeader =>
      if line =? CRLF then
        (mk Done (p_method p) (p_host p) (p_port p) (p_path p) (p_version p)
            (p_headers p), HEADER)
      else
        match header_line line with
        | Some h =>
            let p' := observe_host p h in
            (mk AwaitingHeader (p_method p') (p_host p') (p_port p') (p_path p')
                (p_version p') (p_headers p' ++ [h]), HEADER)
        | None => fail p
        end
  | Done | Failed => fail p
  end.

Definition retrieve (p : t) (f : parser_field) : option string :=
  match f with
  | METHOD => p_method p
  | HOST => p_host p
  | PORT => p_port p
  | PATH => p_path p
  | HTTP_VERSION => p_version p
  | SCHEME | URI => None
  end.

Definition retrieve_next_header (p : t) : t * option header_t :=
  match p_headers p with
  | [] => (p, None)
  | h :: hs =>
      (mk (at_phase p) (p_method p) (p_host p) (p_port p) (p_path p)
          (p_version p) hs, Some h)
  end.

End SpecParser.

(** Modelled from the spec: the request parser of http_parser.h, which is not
    in the sources.  The first line must have the shape
    [METHOD SP (ABSOLUTE-URI|PATH) SP VERSION CRLF]; an authority in the URI
    gives the host and the port and leaves the path.  Every later line is a
    header [TOKEN ":" SP VALUE CRLF], or the blank line, or malformed.  A
    [Host] header supplies the host when the request line had no authority.
    An error is final. *)
Definition spec_parser : http_parser := {|
  parser_t := SpecParser.t;
  parser_new := SpecParser.fresh;
  parser_parse_line := SpecParser.parse_line;
  parser_retrieve := SpecParser.retrieve;
  parser_retrieve_next_header := SpecParser.retrieve_next_header
|}.

(** The handler with this parser and these sizes. *)
Definition doit_8k (w : world) (client_fd : Z) : trace * outcome Z :=
  @doit csapp_8k spec_parser w client_fd.

Definition thread_8k (w : world) (client_fd : Z) : trace * outcome unit :=
  @thread csapp_8k spec_parser w client_fd.

(** Requests to run the handler on, the first line apart where a proof
    names it. *)
Definition ex_get_line : string :=
  cat ["GET http://example.com:8080/index.html HTTP/1.1"; CRLF].

Definition ex_get_tail : string :=
  cat ["host: other"; CRLF; "Host: evil"; CRLF; "Accept: */*"; CRLF;
       "Connection: keep-alive"; CRLF; CRLF].

Definition ex_get : string := ex_get_line ++ ex_get_tail.

Definition ex_get_headers : list header_t :=
  [mk_header "host" "other"; mk_header "Host" "evil";
   mk_header "Accept" "*/*"; mk_header "Connection" "keep-alive"].

Definition ex_bad_header_line : string :=
  cat ["GET http://example.com/ HTTP/1.1"; CRLF].

Definition ex_bad_header_tail : string :=
  cat ["Accept: */*"; CRLF; "Host example.com"; CRLF; "X-Test: 1"; CRLF; CRLF].

Definition ex_bad_header : string := ex_bad_header_line ++ ex_bad_header_tail.

Definition ex_host_only : string :=
  cat ["GET /index.html HTTP/1.1"; CRLF; "Host: example.com"; CRLF; CRLF].

Definition ex_no_host : string :=
  cat ["GET /index.html HTTP/1.0"; CRLF; CRLF].

Definition ex_post : string :=
  cat ["POST http://example.com/ HTTP/1.1"; CRLF;
       "Host example.com"; CRLF; CRLF].

Definition ex_bad_request_line : string := cat ["GET"; CRLF].

(** A client that sends [text] and stays connected, and an origin at
    descriptor 5 that answers [reply] to whatever it is sent. *)
Definition calm (text reply : string) : world :=
  mk_world text true (fun _ _ => 5%Z) true (fun _ => reply).

(** The same client with no origin to connect to. *)
Definition lonely (text : string) : world :=
  mk_world text true (fun _ _ => (-1)%Z) true (fun _ => "").

(** A host name of [n] letters, and a request line that fits the line buffer
    of [csapp_8k] with a host too long for the request buffer. *)
Fixpoint blob (n : nat) : string :=
  match n with
  | O => ""
  | S n' => String "a" (blob n')
  end.

Definition ex_long_line : string :=
  cat ["GET http://"; blob (81 * 100); "/ HTTP/1.0"; CRLF].

Definition ex_long : string := ex_long_line ++ CRLF.

(** ** The origin server, tiny/tiny.c

    The server the proxy is run against.  It handles one connection at a
    time: [main] accepts, calls [serve] and closes.  Its system calls are
    recorded in a trace of their own kind; the file system is part of the
    world the server runs in. *)
Module Tiny.

Inductive parse_result := PARSE_ERROR | PARSE_STATIC | PARSE_DYNAMIC.

Definition parse_result_eqb (a b : parse_result) : bool :=
  match a, b with
  | PARSE_ERROR, PARSE_ERROR | PARSE_STATIC, PARSE_STATIC
  | PARSE_DYNAMIC, PARSE_DYNAMIC => true
  | _, _ => false
  end.

(** [strstr(haystack, needle) != NULL]. *)
Fixpoint strstr (haystack needle : string) : bool :=
  String.prefix needle haystack ||
  match haystack with
  | "" => false
  | String _ h => strstr h needle
  end.

(** [strchr(s, c)]: the text before the first [c] and the text after it. *)
Fixpoint strchr (s : string) (c : ascii) : option (string * string) :=
  match s with
  | "" => None
  | String a s' =>
      if Ascii.eqb a c then Some ("", s')
      else
        match strchr s' c with
        | Some (l, r) => Some (String a l, r)
        | None => None
        end
  end.

(** Whether the last byte of [s] is [c]. *)
Fixpoint ends_with (s : string) (c : ascii) : bool :=
  match s with
  | "" => false
  | String a "" => Ascii.eqb a c
  | String _ s' => ends_with s' c
  end.

(** [%d] of [printf]. *)
Definition pd (n : Z) : string := NilEmpty.string_of_int (Z.to_int n).

(** The conversion of an [off_t] to the [int] parameter [filesize] of
    [serve_static]: the value modulo 2^32, as a signed number. *)
Definition int_of_off_t (n : Z) : Z :=
  ((n + 2 ^ 31) mod 2 ^ 32 - 2 ^ 31)%Z.

(** What [stat] tells of a file: [S_ISREG], [S_IRUSR] and [S_IXUSR] of
    [st_mode], and [st_size]. *)
Record stat_t := mk_stat {
  st_isreg : bool;
  st_irusr : bool;
  st_ixusr : bool;
  st_size : Z
}.

Inductive event :=
| Write (fd : Z) (data : string)              (* rio_writen(fd, data, len) *)
| Stat (filename : string)                    (* stat(filename, &sbuf) *)
| Open (filename : string)                    (* open(filename, O_RDONLY, 0) *)
| Mmap (srcfd : Z) (filesize : Z)             (* mmap(0, filesize, ..., srcfd, 0) *)
| Munmap (filesize : Z)                       (* munmap(srcp, filesize) *)
| Close (fd : Z)                              (* close(fd) *)
| Cgi (fd : Z) (filename cgiargs : string).   (* fork, execve in the child, wait *)

(** One connection and the files: the bytes the client sends, whether writes
    to it succeed, the answer of [stat] ([None] when it fails), the
    descriptor [open] answers (negative when it fails), the bytes the mapping
    of a descriptor holds ([None] for [MAP_FAILED]) and whether [fork]
    succeeds. *)
Record site := mk_site {
  client_in : string;
  client_up : bool;
  stat : string -> option stat_t;
  open_file : string -> Z;
  mmap : Z -> Z -> option string;
  fork_ok : bool
}.

Fixpoint written (fd : Z) (t : list event) : string :=
  match t with
  | [] => ""
  | Write fd' data :: t' =>
      if Z.eqb fd' fd then data ++ written fd t' else written fd t'
  | _ :: t' => written fd t'
  end.

Fixpoint closes (fd : Z) (t : list event) : nat :=
  match t with
  | [] => 0
  | Close fd' :: t' => (if Z.eqb fd' fd then 1 else 0) + closes fd t'
  | _ :: t' => closes fd t'
  end.

(** The files named in [stat] and [open] calls and run as CGI programs. *)
Fixpoint files (t : list event) : list string :=
  match t with
  | [] => []
  | Stat f :: t' => f :: files t'
  | Open f :: t' => f :: files t'
  | Cgi _ f _ :: t' => f :: files t'
  | _ :: t' => files t'
  end.

Fixpoint opened (t : list event) : list string :=
  match t with
  | [] => []
  | Open f :: t' => f :: opened t'
  | _ :: t' => opened t'
  end.

(** [get_filetype]: the first of the four extensions found anywhere in the
    name decides. *)
Definition get_filetype (filename : string) : string :=
  if strstr filename ".html" then "text/html"
  else if strstr filename ".gif" then "image/gif"
  else if strstr filename ".png" then "image/png"
  else if strstr filename ".jpg" then "image/jpeg"
  else "text/plain".

Section Server.

Context {limits : csapp_limits} {parser : http_parser}.
Variable w : site.

(** [parse_path]: the result, [filename] and [cgiargs].  On [PARSE_ERROR] the
    two buffers are given as empty: [serve] does not read them then. *)
Definition parse_path (path : string) : parse_result * string * string :=
  let path_name := "/" ++ path in
  if (MAXLINE <=? String.length path_name)%nat then (PARSE_ERROR, "", "")
  else if String.prefix "/cgi-bin/" path_name then
    (* Dynamic content *)
    match strchr path_name "?" with
    | None =>
        let filename := "." ++ path_name in
        if (MAXLINE <=? String.length filename)%nat then (PARSE_ERROR, "", "")
        else (PARSE_DYNAMIC, filename, "")
    | Some (before, args) =>
        if (MAXLINE <=? String.length args)%nat then (PARSE_ERROR, "", "")
        else
          let filename := "." ++ before in
          if (MAXLINE <=? String.length filename)%nat then (PARSE_ERROR, "", "")
          else (PARSE_DYNAMIC, filename, args)
    end
  else
    (* Static content *)
    if strstr path_name "/../" then (PARSE_ERROR, "", "")
    else
      let is_dir := ends_with path_name "/" in
      let filename :=
        "." ++ path_name ++ (if is_dir then "home.html" else "") in
      if (MAXLINE <=? String.length filename)%nat then (PARSE_ERROR, "", "")
      else (PARSE_STATIC, filename, "").

(** [clienterror] of tiny.c, the same text as the one of proxy.c. *)
Definition clienterror (fd : Z) (errnum shortmsg longmsg : string)
    : list event :=
  let body := error_body errnum shortmsg longmsg in
  let bodylen := String.length body in
  if (MAXBUF <=? bodylen)%nat then []
  else
    let buf := error_headers errnum shortmsg bodylen in
    let buflen := String.length buf in
    if (MAXLINE <=? buflen)%nat then []
    else if negb (client_up w) then [Write fd buf]
    else [Write fd buf; Write fd body].

(** The response headers of [serve_static]. *)
Definition static_headers (filesize : Z) (filetype : string) : string :=
  cat ["HTTP/1.0 200 OK"; CRLF;
       "Server: Tiny Web Server"; CRLF;
       "Connection: close"; CRLF;
       "Content-Length: "; pd filesize; CRLF;
       "Content-Type: "; filetype; CRLF; CRLF].

(** [serve_static]. *)
Definition serve_static (fd : Z) (filename : string) (filesize : Z)
    : list event :=
  let filetype := get_filetype filename in
  let buf := static_headers filesize filetype in
  let buflen := String.length buf in
  if (MAXBUF <=? buflen)%nat then []
  else if negb (client_up w) then [Write fd buf]
  else
    (* Send response body to client *)
    let srcfd := open_file w filename in
    if (srcfd <? 0)%Z then [Write fd buf; Open filename]
    else
      match mmap w srcfd filesize with
      | None =>
          [Write fd buf; Open filename; Mmap srcfd filesize; Close srcfd]
      | Some srcp =>
          [Write fd buf; Open filename; Mmap srcfd filesize; Close srcfd;
           Write fd srcp; Munmap filesize]
      end.

(** [serve_dynamic], in the server's process: the first part of the response,
    then [fork]; the child sets [QUERY_STRING] to [cgiargs], makes [fd] its
    standard output and runs [filename], and the parent waits for it, which
    is the one event [Cgi]. *)
Definition serve_dynamic (fd : Z) (filename cgiargs : string) : list event :=
  let buf := cat ["HTTP/1.0 200 OK"; CRLF; "Server: Tiny Web Server"; CRLF] in
  let buflen := String.length buf in
  if (MAXLINE <=? buflen)%nat then []
  else if negb (client_up w) then [Write fd buf]
  else if negb (fork_ok w) then [Write fd buf]
  else [Write fd buf; Cgi fd filename cgiargs].

(** [read_requesthdrs]: [true] for an error.  A line parsed as a header with
    no header to retrieve makes the [printf] read through [NULL]. *)
Fixpoint read_requesthdrs (fuel : nat) (connfd : Z) (p : parser_t)
    (rp : string) : list event * outcome bool :=
  match fuel with
  | O => ([], Starved)
  | S fuel' =>
      have (buf, rp') <- rio_readlineb rp MAXLINE orelse ([], Ok true);
      if buf =? CRLF then ([], Ok false)
      else
        let (p', parse_state) := parser_parse_line p buf in
        if negb (parser_state_eqb parse_state HEADER) then
          (clienterror connfd "400" "Bad Request"
             "Tiny could not parse request headers", Ok true)
        else
          let (p'', next) := parser_retrieve_next_header p' in
          have _ <- next orelse ([], Fault);
          read_requesthdrs fuel' connfd p'' rp'
  end.

(** [serve]: one request and its response.  The results of the two calls of
    [parser_retrieve] are not checked: where one fails the pointer it should
    have set is read uninitialised, [method] by [strcmp] and [path] by
    [parse_path]. *)
Definition serve (connfd : Z) : list event * outcome unit :=
  have (buf, rio) <- rio_readlineb (client_in w) MAXLINE orelse ([], Ok tt);
  let (p, parse_state) := parser_parse_line parser_new buf in
  if negb (parser_state_eqb parse_state REQUEST) then
    (clienterror connfd "400" "Bad Request"
       "Tiny received a malformed request", Ok tt)
  else
  have method <- parser_retrieve p METHOD orelse ([], Fault);
  if negb (method =? "GET") then
    (clienterror connfd "501" "Not Implemented"
       "Tiny does not implement this method", Ok tt)
  else
  match read_requesthdrs (S (String.length rio)) connfd p rio with
  | (t, Fault) => (t, Fault)
  | (t, Starved) => (t, Starved)
  | (t, Ok true) => (t, Ok tt)
  | (t, Ok false) =>
  have path <- parser_retrieve p PATH orelse (t, Fault);
  let '(result, filename, cgiargs) := parse_path path in
  if parse_result_eqb result PARSE_ERROR then
    ((t ++ clienterror connfd "400" "Bad Request"
             "Tiny could not parse the request URI")%list, Ok tt)
  else
  have sbuf <- stat w filename
    orelse ((t ++ [Stat filename] ++
             clienterror connfd "404" "Not found"
               "Tiny couldn't find this file")%list, Ok tt);
  if parse_result_eqb result PARSE_STATIC then
    if negb (st_isreg sbuf) || negb (st_irusr sbuf) then
      ((t ++ [Stat filename] ++
        clienterror connfd "403" "Forbidden"
          "Tiny couldn't read the file")%list, Ok tt)
    else
      ((t ++ [Stat filename] ++
        serve_static connfd filename (int_of_off_t (st_size sbuf)))%list,
       Ok tt)
  else
    if negb (st_isreg sbuf) || negb (st_ixusr sbuf) then
      ((t ++ [Stat filename] ++
        clienterror connfd "403" "Forbidden"
          "Tiny couldn't run the CGI program")%list, Ok tt)
    else
      ((t ++ [Stat filename] ++
        serve_dynamic connfd filename cgiargs)%list, Ok tt)
  end.

(** One round of the loop of [main], for an accepted connection: [serve],
    then [close]. *)
Definition serve_and_close (connfd : Z) : list event * outcome unit :=
  match serve connfd with
  | (t, Ok _) => ((t ++ [Close connfd])%list, Ok tt)
  | (t, Fault) => (t, Fault)
  | (t, Starved) => (t, Starved)
  end.

End Server.

End Tiny.

(** The parser [spec_parser] handing out the path without its leading slash,
    the form [parse_path] expects (it puts the slash in front itself). *)
Definition bare_parser : http_parser := {|
  parser_t := SpecParser.t;
  parser_new := SpecParser.fresh;
  parser_parse_line := SpecParser.parse_line;
  parser_retrieve := fun p f =>
    match f with
    | PATH => option_map (drop 1) (SpecParser.retrieve p PATH)
    | _ => SpecParser.retrieve p f
    end;
  parser_retrieve_next_header := SpecParser.retrieve_next_header
|}.

(** A site with a home page of 12 bytes, a page that may not be read and a
    program; files are opened at descriptor 7. *)
Definition ex_site (text : string) : Tiny.site :=
  Tiny.mk_site text true
    (fun f =>
       if f =? "./home.html" then Some (Tiny.mk_stat true true false 12)
       else if f =? "./cgi-bin/adder" then Some (Tiny.mk_stat true true true 900)
       else if f =? "./secret.html" then Some (Tiny.mk_stat true false false 5)
       else None)
    (fun _ => 7%Z)
    (fun _ n => if (n =? 12)%Z then Some "Hello, tiny!" else None)
    true.

Definition ex_tiny_line : string := cat ["GET / HTTP/1.0"; CRLF].

Definition ex_tiny_tail : string := cat ["Host: example.com"; CRLF; CRLF].

Definition ex_tiny_home : string := ex_tiny_line ++ ex_tiny_tail.

Definition ex_tiny_cgi : string :=
  cat ["GET /cgi-bin/adder?1&2 HTTP/1.0"; CRLF; CRLF].

Definition ex_tiny_cut : string :=
  cat ["GET / HTTP/1.0"; CRLF; "Host: example.com"; CRLF].

(** A client as in [calm] and an origin that is reached and takes no
    write. *)
Definition deaf (text : string) : world :=
  mk_world text true (fun _ _ => 5%Z) false (fun _ => "").

(** [ex_get] followed by a request body. *)
Definition ex_get_body : string := ex_get ++ "name=value".

(** * Properties *)

(** ** Strings *)

Lemma append_nil_r (s : string) : s ++ "" = s.
Proof. induction s as [|c s IH]; simpl; [reflexivity | now rewrite IH]. Qed.

Lemma append_assoc (a b c : string) : (a ++ b) ++ c = a ++ b ++ c.
Proof. induction a as [|x a IH]; simpl; [reflexivity | now rewrite IH]. Qed.

Lemma length_append (a b : string) :
  String.length (a ++ b) = String.length a + String.length b.
Proof. induction a as [|x a IH]; simpl; [reflexivity | now rewrite IH]. Qed.

Lemma cat_app (l1 l2 : list string) : cat (l1 ++ l2)%list = cat l1 ++ cat l2.
Proof.
  induction l1 as [|s l1 IH]; simpl; [reflexivity|].
  now rewrite IH, append_assoc.
Qed.

Lemma take_drop (n : nat) (s : string) : take n s ++ drop n s = s.
Proof.
  revert n; induction s as [|c s IH]; intros [|n]; simpl; try reflexivity.
  now rewrite IH.
Qed.

Lemma length_take (n : nat) (s : string) :
  String.length (take n s) = Nat.min n (String.length s).
Proof.
  revert n; induction s as [|c s IH]; intros [|n]; simpl; try reflexivity.
  now rewrite IH.
Qed.

Lemma length_drop (n : nat) (s : string) :
  String.length (drop n s) = String.length s - n.
Proof.
  revert n; induction s as [|c s IH]; intros [|n]; simpl; try reflexivity.
  now rewrite IH.
Qed.

(** The numeral printed by [%zu] reads back as the number. *)
Lemma zu_reads_back (n : nat) :
  option_map Nat.of_uint (NilEmpty.uint_of_string (zu n)) = Some n.
Proof.
  unfold zu. rewrite NilEmpty.usu. simpl. now rewrite DecimalNat.Unsigned.of_to.
Qed.

(** ** The line reader *)

Lemma readline_upto_split (k : nat) (rp buf rp' : string) :
  readline_upto k rp = (buf, rp') -> rp = buf ++ rp'.
Proof.
  revert rp buf rp'; induction k as [|k IH]; intros rp buf rp' H.
  - destruct rp; simpl in H; inversion H; reflexivity.
  - destruct rp as [|c rest]; simpl in H.
    + inversion H; reflexivity.
    + destruct (Ascii.eqb c LF).
      * inversion H; reflexivity.
      * destruct (readline_upto k rest) as [l r] eqn:E.
        inversion H; subst. simpl. f_equal. now apply IH.
Qed.

Lemma rio_readlineb_split (rp buf rp' : string) (maxlen : nat) :
  rio_readlineb rp maxlen = Some (buf, rp') ->
  rp = buf ++ rp' /\ buf <> "".
Proof.
  unfold rio_readlineb. intros H.
  destruct (readline_upto (maxlen - 1) rp) as [l r] eqn:E.
  destruct l as [|c l]; [discriminate|].
  inversion H; subst. split; [now apply readline_upto_split in E | discriminate].
Qed.

Lemma rio_readlineb_consumes (rp buf rp' : string) (maxlen : nat) :
  rio_readlineb rp maxlen = Some (buf, rp') ->
  String.length rp' < String.length rp.
Proof.
  intros H. apply rio_readlineb_split in H as [-> Hne].
  rewrite length_append. destruct buf; [congruence | simpl; lia].
Qed.

Lemma rio_readlineb_fits (rp buf rp' : string) (maxlen : nat) :
  rio_readlineb rp maxlen = Some (buf, rp') ->
  String.length buf < maxlen.
Proof.
  unfold rio_readlineb. intros H.
  destruct (readline_upto (maxlen - 1) rp) as [l r] eqn:E.
  assert (Hl : forall k s l r, readline_upto k s = (l, r) -> String.length l <= k).
  { clear. induction k as [|k IH]; intros s l r H.
    - destruct s; simpl in H; inversion H; simpl; lia.
    - destruct s as [|c s]; simpl in H; [inversion H; simpl; lia|].
      destruct (Ascii.eqb c LF); [inversion H; simpl; lia|].
      destruct (readline_upto k s) as [l' r'] eqn:E.
      inversion H; subst; simpl. apply IH in E. lia. }
  apply Hl in E. destruct l; [discriminate|]. inversion H; subst.
  simpl in *. lia.
Qed.

(** ** Buffers *)

Lemma sprintf_some (cap : nat) (s x : string) :
  sprintf cap s = Some x -> x = s /\ String.length s < cap.
Proof.
  unfold sprintf. destruct (String.length s <? cap)%nat eqn:E; [|discriminate].
  intros H; inversion H; subst. apply Nat.ltb_lt in E. now split.
Qed.

Lemma strcat_some (cap : nat) (dst src x : string) :
  strcat cap dst src = Some x -> x = dst ++ src /\ String.length (dst ++ src) < cap.
Proof. apply sprintf_some. Qed.

Lemma sprintf_fit (cap : nat) (s : string) :
  String.length s < cap -> sprintf cap s = Some s.
Proof. intros H. unfold sprintf. apply Nat.ltb_lt in H. now rewrite H. Qed.

(** ** Traces *)

Lemma written_app (fd : Z) (t1 t2 : trace) :
  written fd (t1 ++ t2)%list = written fd t1 ++ written fd t2.
Proof.
  induction t1 as [|[fd' data|h p|fd'] t1 IH]; simpl; auto.
  destruct (fd' =? fd)%Z; auto. now rewrite IH, append_assoc.
Qed.

Lemma closes_app (fd : Z) (t1 t2 : trace) :
  closes fd (t1 ++ t2)%list = closes fd t1 + closes fd t2.
Proof.
  induction t1 as [|[fd' data|h p|fd'] t1 IH]; simpl; auto.
  rewrite IH. lia.
Qed.

Lemma connects_app (t1 t2 : trace) :
  connects (t1 ++ t2)%list = (connects t1 ++ connects t2)%list.
Proof.
  induction t1 as [|[fd' data|h p|fd'] t1 IH]; simpl; auto.
  now rewrite IH.
Qed.

(** ** Header lists *)

Lemma managed_iff (h : header_t) :
  managed h = true <->
  name h = "Host" \/ name h = "User-Agent" \/
  name h = "Connection" \/ name h = "Proxy-Connection".
Proof.
  unfold managed. rewrite !orb_true_iff, !String.eqb_eq. tauto.
Qed.

Lemma managed_false_iff (h : header_t) :
  managed h = false <->
  name h <> "Host" /\ name h <> "User-Agent" /\
  name h <> "Connection" /\ name h <> "Proxy-Connection".
Proof.
  unfold managed. rewrite !orb_false_iff, !String.eqb_neq. tauto.
Qed.

Lemma named_passed (n : string) (hs : list header_t) :
  managed (mk_header n "") = true -> named n (passed hs) = [].
Proof.
  intros Hn. unfold named, passed.
  induction hs as [|h hs IH]; simpl; [reflexivity|].
  destruct (managed h) eqn:Em; simpl; [exact IH|].
  destruct (name h =? n) eqn:En; [|exact IH].
  apply String.eqb_eq in En. unfold managed in *. simpl in Hn.
  rewrite En in Em. congruence.
Qed.

Lemma cat_headers_app (l1 l2 : list header_t) :
  cat (map header_text (l1 ++ l2)%list) =
  cat (map header_text l1) ++ cat (map header_text l2).
Proof. now rewrite map_app, cat_app. Qed.

(** ** The relay loop *)

Lemma relay_spec (fd : Z) (n : nat) :
  0 < n ->
  forall (fuel : nat) (srp : string),
  String.length srp < fuel ->
  exists t,
    relay fuel fd n srp = Some t /\
    written fd t = srp /\
    Forall (fun e => exists data, e = EvWrite fd data /\
                       0 < String.length data <= n) t /\
    List.length t = (String.length srp + n - 1) / n.
Proof.
  intros Hn. induction fuel as [|fuel IH]; intros srp Hlt; [lia|].
  simpl. unfold rio_readnb.
  destruct (0 <? String.length (take n srp))%nat eqn:E.
  - apply Nat.ltb_lt in E.
    assert (Hlen := length_take n srp).
    assert (Hd := length_drop n srp).
    destruct (IH (drop n srp)) as (t & Ht & Hw & Hf & Hc); [lia|].
    rewrite Ht. exists (EvWrite fd (take n srp) :: t). repeat split.
    + simpl. rewrite Z.eqb_refl, Hw. apply take_drop.
    + constructor; [|exact Hf]. exists (take n srp). split; [reflexivity|lia].
    + simpl. rewrite Hc, Hd.
      assert (Hpos : 1 <= String.length srp) by lia.
      replace (String.length srp + n - 1) with (String.length srp - 1 + 1 * n) by lia.
      rewrite Nat.div_add by lia.
      destruct (Nat.le_gt_cases n (String.length srp)) as [Hge|Hsm].
      * replace (String.length srp - n + n - 1) with (String.length srp - 1) by lia.
        lia.
      * rewrite !Nat.div_small by lia. lia.
  - apply Nat.ltb_ge in E. rewrite length_take in E.
    assert (H0 : String.length srp = 0) by lia.
    destruct srp; [|discriminate]. exists []. repeat split.
    + constructor.
    + simpl. rewrite Nat.div_small by lia. reflexivity.
Qed.

Lemma relay_quiet (fd : Z) (n : nat) (fuel : nat) :
  forall (srp : string) (t : trace),
  relay fuel fd n srp = Some t ->
  connects t = [] /\ (forall fd', closes fd' t = 0) /\
  (forall fd', fd' <> fd -> written fd' t = "").
Proof.
  induction fuel as [|fuel IH]; intros srp t H; [discriminate|].
  simpl in H. unfold rio_readnb in H.
  destruct (0 <? String.length (take n srp))%nat.
  - destruct (relay fuel fd n (drop n srp)) as [t'|] eqn:E; [|discriminate].
    inversion H; subst. apply IH in E as (Hc & Hcl & Hw). repeat split; auto.
    intros fd' Hne. simpl. apply not_eq_sym, Z.eqb_neq in Hne.
    rewrite Hne. now apply Hw, Z.eqb_neq; rewrite Z.eqb_sym.
  - inversion H; subst. repeat split; auto.
Qed.

Lemma MAX_OBJECT_SIZE_pos : 0 < MAX_OBJECT_SIZE.
Proof. unfold MAX_OBJECT_SIZE. lia. Qed.

(** The text [doit] builds piece by piece is [outbound]. *)
Lemma outbound_built (path host port : string) (hs : list header_t) :
  ((((((cat ["GET"; " "; path; " "; default_version] ++
        cat ["Host: "; host; ":"; port; CRLF]) ++ header_user_agent) ++
      header_conn) ++ header_proxy) ++
    cat (map header_text (passed hs))) ++ CRLF) =
  outbound path host port hs.
Proof.
  unfold outbound, outbound_headers, header_text, default_version,
    header_user_agent, header_conn, header_proxy.
  cbn [cat map name value].
  repeat rewrite append_assoc. repeat rewrite append_nil_r.
  reflexivity.
Qed.

Section Facts.

Context {limits : csapp_limits} {parser : http_parser}.
Variable w : world.

(** ** [clienterror] *)

Lemma clienterror_quiet (fd fd' : Z) (errnum shortmsg longmsg : string) :
  closes fd' (clienterror w fd errnum shortmsg longmsg) = 0 /\
  connects (clienterror w fd errnum shortmsg longmsg) = [].
Proof.
  unfold clienterror.
  destruct (MAXBUF <=? _)%nat; [now split|].
  destruct (MAXLINE <=? _)%nat; [now split|].
  destruct (negb (client_up w)); now split.
Qed.

Lemma clienterror_elsewhere (fd fd' : Z) (errnum shortmsg longmsg : string) :
  fd <> fd' -> written fd' (clienterror w fd errnum shortmsg longmsg) = "".
Proof.
  intros Hne. apply Z.eqb_neq in Hne. unfold clienterror.
  destruct (MAXBUF <=? _)%nat; [reflexivity|].
  destruct (MAXLINE <=? _)%nat; [reflexivity|].
  destruct (negb (client_up w)); simpl; now rewrite ?Hne.
Qed.

(** When both texts fit and the client is connected, the answer is the
    headers and then the body. *)
Lemma clienterror_fits (fd : Z) (errnum shortmsg longmsg : string) :
  client_up w = true ->
  String.length (error_body errnum shortmsg longmsg) < MAXBUF ->
  String.length (error_headers errnum shortmsg
                   (String.length (error_body errnum shortmsg longmsg))) < MAXLINE ->
  clienterror w fd errnum shortmsg longmsg =
  [EvWrite fd (error_headers errnum shortmsg
                 (String.length (error_body errnum shortmsg longmsg)));
   EvWrite fd (error_body errnum shortmsg longmsg)].
Proof.
  intros Hup Hb Hh. unfold clienterror.
  destruct (Nat.leb_spec MAXBUF (String.length (error_body errnum shortmsg longmsg)));
    [lia|].
  destruct (Nat.leb_spec MAXLINE
              (String.length (error_headers errnum shortmsg
                 (String.length (error_body errnum shortmsg longmsg))))); [lia|].
  now rewrite Hup.
Qed.

(** ** The header loop *)

Lemma other_headers_spec (fuel : nat) (fd : Z) :
  forall (p : parser_t) (rp request : string) (t : trace) (request' rest : string),
  other_headers w fuel fd p rp request = (t, Ok (request', rest)) ->
  exists hs s,
    client_headers fuel p rp = (hs, s, rest) /\
    request' = request ++ cat (map header_text (passed hs)) /\
    t = stop_trace w fd s /\
    (s = AtEof \/ s = AtBlank \/ s = AtMalformed).
Proof.
  induction fuel as [|fuel IH]; intros p rp request t request' rest H.
  - discriminate.
  - simpl in H |- *.
    destruct (rio_readlineb rp MAXLINE) as [[buf rp1]|] eqn:Er.
    2:{ inversion H; subst. exists [], AtEof. simpl. rewrite append_nil_r. repeat split; auto. }
    destruct (buf =? CRLF) eqn:Eb.
    { inversion H; subst. exists [], AtBlank. simpl. rewrite append_nil_r.
      repeat split; auto. }
    destruct (parser_parse_line p buf) as [p1 st] eqn:Ep.
    destruct (negb (parser_state_eqb st HEADER)) eqn:Es.
    { inversion H; subst. exists [], AtMalformed. simpl.
      rewrite append_nil_r. repeat split; auto. }
    destruct (parser_retrieve_next_header p1) as [p2 [h|]] eqn:En;
      [|discriminate].
    destruct (managed h) eqn:Em; simpl in H.
    + apply IH in H as (hs & s & Hc & Hr & Ht & Hs).
      rewrite Hc. exists (h :: hs), s. unfold passed in *. simpl.
      rewrite Em. simpl. repeat split; auto.
    + destruct (sprintf MAXLINE (header_text h)) as [hdr|] eqn:Eh;
        [|discriminate].
      destruct (strcat MAXBUF request hdr) as [request1|] eqn:Ec;
        [|discriminate].
      apply sprintf_some in Eh as [-> _].
      apply strcat_some in Ec as [-> _].
      apply IH in H as (hs & s & Hc & Hr & Ht & Hs).
      rewrite Hc. exists (h :: hs), s. unfold passed in *. simpl.
      rewrite Em. simpl. rewrite Hr, !append_assoc. repeat split; auto.
Qed.

(** The bound [doit] gives the loop is never reached: every round reads at
    least one byte. *)
Lemma other_headers_fed (fuel : nat) (fd : Z) :
  forall (p : parser_t) (rp request : string),
  String.length rp < fuel ->
  snd (other_headers w fuel fd p rp request) <> Starved.
Proof.
  induction fuel as [|fuel IH]; intros p rp request Hlt; [lia|].
  simpl.
  destruct (rio_readlineb rp MAXLINE) as [[buf rp1]|] eqn:Er; [|discriminate].
  apply rio_readlineb_consumes in Er.
  destruct (buf =? CRLF); [discriminate|].
  destruct (parser_parse_line p buf) as [p1 st].
  destruct (negb (parser_state_eqb st HEADER)); [discriminate|].
  destruct (parser_retrieve_next_header p1) as [p2 [h|]]; [|discriminate].
  destruct (managed h); simpl.
  - apply IH; lia.
  - destruct (sprintf MAXLINE (header_text h)); [|discriminate].
    destruct (strcat MAXBUF request s); [|discriminate].
    apply IH; lia.
Qed.

(** The header loop neither connects nor closes anything. *)
Lemma other_headers_quiet (fuel : nat) (fd fd' : Z) :
  forall (p : parser_t) (rp request : string),
  closes fd' (fst (other_headers w fuel fd p rp request)) = 0 /\
  connects (fst (other_headers w fuel fd p rp request)) = [].
Proof.
  induction fuel as [|fuel IH]; intros p rp request; [now split|].
  simpl.
  destruct (rio_readlineb rp MAXLINE) as [[buf rp1]|]; [|now split].
  destruct (buf =? CRLF); [now split|].
  destruct (parser_parse_line p buf) as [p1 st].
  destruct (negb (parser_state_eqb st HEADER)); [apply clienterror_quiet|].
  destruct (parser_retrieve_next_header p1) as [p2 [h|]]; [|now split].
  destruct (managed h); simpl; [apply IH|].
  destruct (sprintf MAXLINE (header_text h)); [|now split].
  destruct (strcat MAXBUF request s); [apply IH|now split].
Qed.

(** When every text fits, the loop ends well: the converse of
    [other_headers_spec]. *)
Lemma other_headers_fits (fuel : nat) (fd : Z) :
  forall (p : parser_t) (rp request : string) (hs : list header_t) (s : stop)
         (rest : string),
  client_headers fuel p rp = (hs, s, rest) ->
  s = AtEof \/ s = AtBlank \/ s = AtMalformed ->
  Forall (fun h => String.length (header_text h) < MAXLINE) (passed hs) ->
  String.length (request ++ cat (map header_text (passed hs))) < MAXBUF ->
  other_headers w fuel fd p rp request =
    (stop_trace w fd s, Ok (request ++ cat (map header_text (passed hs)), rest)).
Proof.
  induction fuel as [|fuel IH]; intros p rp request hs s rest Hc Hs Hl Hb.
  - simpl in Hc. inversion Hc; subst. destruct Hs as [|[|]]; discriminate.
  - simpl in Hc |- *.
    destruct (rio_readlineb rp MAXLINE) as [[buf rp1]|].
    2:{ inversion Hc; subst. simpl. now rewrite append_nil_r. }
    destruct (buf =? CRLF).
    { inversion Hc; subst. simpl. now rewrite append_nil_r. }
    destruct (parser_parse_line p buf) as [p1 st].
    destruct (negb (parser_state_eqb st HEADER)).
    { inversion Hc; subst. simpl. now rewrite append_nil_r. }
    destruct (parser_retrieve_next_header p1) as [p2 [h|]].
    2:{ inversion Hc; subst. destruct Hs as [|[|]]; discriminate. }
    destruct (client_headers fuel p2 rp1) as [[hs' s'] rest'] eqn:Ec.
    inversion Hc; subst. unfold passed in *. simpl in Hl, Hb |- *.
    destruct (managed h); simpl in Hl, Hb |- *.
    + now apply IH.
    + inversion Hl; subst.
      rewrite sprintf_fit by assumption.
      unfold strcat. rewrite sprintf_fit.
      * rewrite (IH p2 rp1 (request ++ header_text h) hs' s rest Ec Hs);
          rewrite ?append_assoc; auto.
      * rewrite <- append_assoc, length_append in Hb.
        rewrite length_append in *. lia.
Qed.


(** ** The handler on a GET request with a host

    The whole of [doit] once the request line is accepted, the method is GET
    and the host and the path are retrieved, on a run that stays within its
    buffers. *)
Lemma doit_get (client_fd : Z) (buf rp : string) (p : parser_t)
    (host path port : string) :
  rio_readlineb (client_in w) MAXLINE = Some (buf, rp) ->
  parser_parse_line parser_new buf = (p, REQUEST) ->
  parser_retrieve p METHOD = Some "GET" ->
  parser_retrieve p HOST = Some host ->
  parser_retrieve p PATH = Some path ->
  port = match parser_retrieve p PORT with
         | Some q => q
         | None => default_port
         end ->
  snd (doit w client_fd) <> Fault ->
  exists hs s rest relayed,
    client_headers (S (String.length rp)) p rp = (hs, s, rest) /\
    (s = AtEof \/ s = AtBlank \/ s = AtMalformed) /\
    String.length (outbound path host port hs) < MAXBUF /\
    relay (S (String.length (origin_out w (outbound path host port hs))))
      client_fd MAX_OBJECT_SIZE (origin_out w (outbound path host port hs)) =
      Some relayed /\
    doit w client_fd =
      let request := outbound path host port hs in
      let serverfd := open_clientfd w host port in
      if (serverfd <? 0)%Z then
        ((stop_trace w client_fd s ++ [EvConnect host port] ++
          clienterror w client_fd "400" "Bad Request"
            "Proxy could not parse request headers" ++ [EvClose serverfd])%list,
         Ok (-1)%Z)
      else if negb (origin_up w) then
        ((stop_trace w client_fd s ++
          [EvConnect host port; EvWrite serverfd request;
           EvClose serverfd])%list,
         Ok (-1)%Z)
      else
        ((stop_trace w client_fd s ++
          [EvConnect host port; EvWrite serverfd request] ++ relayed ++
          [EvClose serverfd])%list,
         Ok 0%Z).
Proof.
  intros Hr Hl Hm Hh Hp Hport Hnf.
  unfold doit in *. rewrite Hr, Hl in *. cbn [parser_state_eqb negb] in *.
  rewrite Hm in *. change ("GET" =? "GET") with true in *. cbn [negb] in *.
  rewrite Hh, Hp, <- Hport in *.
  destruct (sprintf MAXBUF (cat ["GET"; " "; path; " "; default_version]))
    as [r0|] eqn:E0; [|now elim Hnf].
  destruct (sprintf MAXLINE (cat ["Host: "; host; ":"; port; CRLF]))
    as [hh|] eqn:E1; [|now elim Hnf].
  destruct (strcat MAXBUF r0 hh) as [r1|] eqn:E2; [|now elim Hnf].
  destruct (strcat MAXBUF r1 header_user_agent) as [r2|] eqn:E3; [|now elim Hnf].
  destruct (strcat MAXBUF r2 header_conn) as [r3|] eqn:E4; [|now elim Hnf].
  destruct (strcat MAXBUF r3 header_proxy) as [r4|] eqn:E5; [|now elim Hnf].
  destruct (other_headers w (S (String.length rp)) client_fd p rp r4)
    as [t [[r5 rest]| |]] eqn:Eo; [|now elim Hnf|].
  2:{ exfalso. apply (other_headers_fed (S (String.length rp)) client_fd p rp r4);
      [lia | now rewrite Eo]. }
  destruct (strcat MAXBUF r5 CRLF) as [r6|] eqn:E6; [|now elim Hnf].
  apply other_headers_spec in Eo as (hs & s & Hc & Hreq & Ht & Hs).
  apply sprintf_some in E0 as [-> _]. apply sprintf_some in E1 as [-> _].
  apply strcat_some in E2 as [-> _]. apply strcat_some in E3 as [-> _].
  apply strcat_some in E4 as [-> _]. apply strcat_some in E5 as [-> _].
  apply strcat_some in E6 as [-> Hfit]. subst r5 t.
  rewrite outbound_built in *.
  destruct (relay_spec client_fd MAX_OBJECT_SIZE MAX_OBJECT_SIZE_pos
              (S (String.length (origin_out w (outbound path host port hs))))
              (origin_out w (outbound path host port hs)))
    as (relayed & Hrel & _); [lia|].
  exists hs, s, rest, relayed. repeat split; auto.
  cbv zeta. rewrite Hrel. reflexivity.
Qed.

(** The run stays within its buffers whenever the Host line and every header
    passed on fit a line buffer and the whole request fits the request
    buffer. *)
Lemma doit_defined (client_fd : Z) (buf rp : string) (p : parser_t)
    (host path port : string) (hs : list header_t) (s : stop) (rest : string) :
  rio_readlineb (client_in w) MAXLINE = Some (buf, rp) ->
  parser_parse_line parser_new buf = (p, REQUEST) ->
  parser_retrieve p METHOD = Some "GET" ->
  parser_retrieve p HOST = Some host ->
  parser_retrieve p PATH = Some path ->
  port = match parser_retrieve p PORT with
         | Some q => q
         | None => default_port
         end ->
  client_headers (S (String.length rp)) p rp = (hs, s, rest) ->
  s <> AtNull ->
  String.length (cat ["Host: "; host; ":"; port; CRLF]) < MAXLINE ->
  Forall (fun h => String.length (header_text h) < MAXLINE) (passed hs) ->
  String.length (outbound path host port hs) < MAXBUF ->
  snd (doit w client_fd) <> Fault.
Proof.
  intros Hr Hl Hm Hh Hp Hport Hc Hs Hhl Hfl Hfit.
  assert (Hs' : s = AtEof \/ s = AtBlank \/ s = AtMalformed).
  { destruct s; auto; [congruence|].
    exfalso.
    assert (Hb : forall fuel q r hs' rest',
               client_headers fuel q r = (hs', AtBound, rest') ->
               fuel <= String.length r).
    { clear. induction fuel as [|fuel IH]; intros q r hs' rest' H; [lia|].
      simpl in H.
      destruct (rio_readlineb r MAXLINE) as [[b r1]|] eqn:Er; [|discriminate].
      apply rio_readlineb_consumes in Er.
      destruct (b =? CRLF); [discriminate|].
      destruct (parser_parse_line q b) as [q1 st].
      destruct (negb (parser_state_eqb st HEADER)); [discriminate|].
      destruct (parser_retrieve_next_header q1) as [q2 [h|]]; [|discriminate].
      destruct (client_headers fuel q2 r1) as [[hs1 s1] rest1] eqn:Ec.
      inversion H; subst. apply IH in Ec. lia. }
    apply Hb in Hc. lia. }
  rewrite <- outbound_built in Hfit.
  unfold doit. rewrite Hr, Hl. cbn [parser_state_eqb negb].
  rewrite Hm. change ("GET" =? "GET") with true. cbn [negb].
  rewrite Hh, Hp, <- Hport.
  rewrite !length_append in Hfit.
  rewrite sprintf_fit by lia. rewrite (sprintf_fit MAXLINE) by assumption.
  unfold strcat at 1. rewrite sprintf_fit by (rewrite !length_append; lia).
  unfold strcat at 1. rewrite sprintf_fit by (rewrite !length_append; lia).
  unfold strcat at 1. rewrite sprintf_fit by (rewrite !length_append; lia).
  unfold strcat at 1. rewrite sprintf_fit by (rewrite !length_append; lia).
  rewrite (other_headers_fits _ client_fd p rp _ hs s rest Hc Hs' Hfl)
    by (rewrite !length_append; lia).
  unfold strcat at 1. rewrite sprintf_fit by (rewrite !length_append; lia).
  destruct (open_clientfd w host port <? 0)%Z; [discriminate|].
  destruct (negb (origin_up w)); [discriminate|].
  destruct (relay _ _ _ _); discriminate.
Qed.

(** What a run of [doit] can be: an early exit, which closes the client's
    descriptor and connects to nothing; undefined behaviour before any
    connection; or a run that dials the host the parser gave for the request
    line, and does not close the client's descriptor. *)
Lemma doit_cases (client_fd : Z) :
  (exists t,
     doit w client_fd = ((t ++ [EvClose client_fd])%list, Ok (-1)%Z) /\
     closes client_fd t = 0 /\ connects t = []) \/
  (exists t, doit w client_fd = (t, Fault) /\ connects t = []) \/
  (exists buf rp host port t1 t2 r,
     rio_readlineb (client_in w) MAXLINE = Some (buf, rp) /\
     parser_retrieve (fst (parser_parse_line parser_new buf)) HOST = Some host /\
     doit w client_fd = ((t1 ++ EvConnect host port :: t2)%list, Ok r) /\
     closes client_fd t1 = 0 /\ connects t1 = [] /\ connects t2 = [] /\
     (open_clientfd w host port <> client_fd -> closes client_fd t2 = 0)).
Proof.
  unfold doit.
  destruct (rio_readlineb (client_in w) MAXLINE) as [[buf rp]|] eqn:Er.
  2:{ left. exists []. now repeat split. }
  destruct (parser_parse_line parser_new buf) as [p st] eqn:El.
  destruct (negb (parser_state_eqb st REQUEST)).
  { left. eexists. split; [reflexivity|]. apply clienterror_quiet. }
  destruct (parser_retrieve p METHOD) as [method|].
  2:{ left. exists []. now repeat split. }
  destruct (negb (method =? "GET")).
  { left. eexists. split; [reflexivity|]. apply clienterror_quiet. }
  destruct (parser_retrieve p HOST) as [host|] eqn:Eh.
  2:{ left. exists []. now repeat split. }
  destruct (parser_retrieve p PATH) as [path|].
  2:{ left. exists []. now repeat split. }
  set (port := match parser_retrieve p PORT with
               | Some q => q
               | None => default_port
               end).
  destruct (sprintf MAXBUF _) as [r0|]; [|right; left; exists []; now split].
  destruct (sprintf MAXLINE _) as [hh|]; [|right; left; exists []; now split].
  destruct (strcat MAXBUF r0 hh) as [r1|]; [|right; left; exists []; now split].
  destruct (strcat MAXBUF r1 _) as [r2|]; [|right; left; exists []; now split].
  destruct (strcat MAXBUF r2 _) as [r3|]; [|right; left; exists []; now split].
  destruct (strcat MAXBUF r3 _) as [r4|]; [|right; left; exists []; now split].
  assert (Hq := other_headers_quiet (S (String.length rp)) client_fd client_fd
                  p rp r4).
  assert (Hfed := other_headers_fed (S (String.length rp)) client_fd p rp r4
                    (Nat.lt_succ_diag_r _)).
  destruct (other_headers w (S (String.length rp)) client_fd p rp r4)
    as [t [[r5 rest]| |]]; cbn [fst snd] in Hq, Hfed; destruct Hq as [Hq1 Hq2].
  2:{ right; left. exists t. now split. }
  2:{ congruence. }
  destruct (strcat MAXBUF r5 CRLF) as [r6|].
  2:{ right; left. exists t. now split. }
  right; right.
  destruct (open_clientfd w host port <? 0)%Z.
  { exists buf, rp, host, port, t. eexists. eexists.
    rewrite El. cbn [fst]. repeat split; auto.
    - rewrite connects_app.
      now destruct (clienterror_quiet client_fd 0 "400" "Bad Request"
                      "Proxy could not parse request headers") as [_ ->].
    - intros Hne. rewrite closes_app.
      destruct (clienterror_quiet client_fd client_fd "400" "Bad Request"
                  "Proxy could not parse request headers") as [-> _].
      simpl. apply Z.eqb_neq in Hne. now rewrite Hne. }
  destruct (negb (origin_up w)).
  { exists buf, rp, host, port, t. eexists. eexists.
    rewrite El. cbn [fst]. repeat split; auto.
    intros Hne. simpl. apply Z.eqb_neq in Hne. now rewrite Hne. }
  destruct (relay_spec client_fd MAX_OBJECT_SIZE MAX_OBJECT_SIZE_pos
              (S (String.length (origin_out w r6))) (origin_out w r6))
    as (t' & Hrel & _); [lia|].
  rewrite Hrel. destruct (relay_quiet _ _ _ _ _ Hrel) as (Hc & Hcl & _).
  exists buf, rp, host, port, t. eexists. eexists.
  rewrite El. cbn [fst]. repeat split; auto.
  - simpl. rewrite connects_app, Hc. reflexivity.
  - intros Hne. simpl. rewrite closes_app, Hcl. simpl.
    apply Z.eqb_neq in Hne. now rewrite Hne.
Qed.

(** [thread] closes the client's descriptor a second time after every early
    exit of [doit], and once after a run that dialled the origin. *)
Lemma thread_closes (client_fd : Z) :
  snd (doit w client_fd) <> Fault ->
  (connects (fst (doit w client_fd)) = [] /\
   closes client_fd (fst (thread w client_fd)) = 2) \/
  (exists host port,
     connects (fst (doit w client_fd)) = [(host, port)] /\
     (open_clientfd w host port <> client_fd ->
      closes client_fd (fst (thread w client_fd)) = 1)).
Proof.
  intros Hnf. unfold thread.
  destruct (doit_cases client_fd)
    as [(t & Hd & Hc & Hq)|[(t & Hd & _)|
        (buf & rp & host & port & t1 & t2 & r & _ & _ & Hd & Hc1 & Hq1 & Hq2 & Hc2)]];
    rewrite Hd in *; cbn [fst snd] in *.
  - left. rewrite connects_app, !closes_app, Hc, Hq. simpl.
    rewrite Z.eqb_refl. now split.
  - congruence.
  - right. exists host, port. split.
    + rewrite connects_app, Hq1. simpl. now rewrite Hq2.
    + intros Hne. rewrite !closes_app, Hc1. simpl. rewrite (Hc2 Hne).
      simpl. now rewrite Z.eqb_refl.
Qed.

(** The host that is dialled is the one the parser gives for the request
    line alone, before any header is read. *)
Lemma dialled_host_is_of_request_line (client_fd : Z) (host port : string) :
  In (host, port) (connects (fst (doit w client_fd))) ->
  exists buf rp,
    rio_readlineb (client_in w) MAXLINE = Some (buf, rp) /\
    parser_retrieve (fst (parser_parse_line parser_new buf)) HOST = Some host.
Proof.
  destruct (doit_cases client_fd)
    as [(t & Hd & Hc & Hq)|[(t & Hd & Hq)|
        (buf & rp & host' & port' & t1 & t2 & r & Hr & Hh & Hd & _ & Hq1 & Hq2 & _)]];
    rewrite Hd; cbn [fst].
  - rewrite connects_app, Hq. simpl. tauto.
  - rewrite Hq. simpl. tauto.
  - rewrite connects_app, Hq1. simpl. rewrite Hq2.
    intros [H|[]]. inversion H; subst. now exists buf, rp.
Qed.

End Facts.

(** * The claims *)

Section Responder.

Context {limits : csapp_limits}.
Variable w : world.

(** C7.  For every status code, reason phrase and message, and a client that
    takes the writes, the error responder either writes the whole response of
    the template, or, when the body would reach [MAXBUF] bytes or the header
    block would reach [MAXLINE] bytes, writes nothing at all.  The response
    is two writes.  The first is the header block: the status line
    [HTTP/1.0 <code> <reason>], Content-Type text/html, a Content-Length that
    is the decimal numeral of the byte length of the body, and a blank line.
    The second is the body: the fixed HTML page of eight lines, each ended by
    CR LF, with [<code>: <reason>] as its heading and the message as its
    paragraph. *)
Theorem clienterror_whole_or_nothing (fd : Z) (errnum shortmsg longmsg : string) :
  client_up w = true ->
  let body :=
    cat ["<!DOCTYPE html>"; CRLF;
         "<html>"; CRLF;
         "<head><title>Tiny Error</title></head>"; CRLF;
         "<body bgcolor="; String DQUOTE "ffffff"; String DQUOTE ">"; CRLF;
         "<h1>"; errnum; ": "; shortmsg; "</h1>"; CRLF;
         "<p>"; longmsg; "</p>"; CRLF;
         "<hr /><em>The Tiny Web server</em>"; CRLF;
         "</body></html>"; CRLF] in
  let headers :=
    cat ["HTTP/1.0 "; errnum; " "; shortmsg; CRLF;
         "Content-Type: text/html"; CRLF;
         "Content-Length: "; zu (String.length body); CRLF; CRLF] in
  option_map Nat.of_uint (NilEmpty.uint_of_string (zu (String.length body))) =
    Some (String.length body) /\
  ((String.length body < MAXBUF /\ String.length headers < MAXLINE /\
    clienterror w fd errnum shortmsg longmsg =
      [EvWrite fd headers; EvWrite fd body]) \/
   ((MAXBUF <= String.length body \/ MAXLINE <= String.length headers) /\
    clienterror w fd errnum shortmsg longmsg = [])).
Proof.
  intros Hup page headers.
  assert (Hpage : error_body errnum shortmsg longmsg = page) by reflexivity.
  assert (Hheaders :
            error_headers errnum shortmsg (String.length page) = headers)
    by reflexivity.
  clearbody page. clearbody headers.
  split; [apply zu_reads_back|].
  destruct (Nat.lt_ge_cases (String.length page) MAXBUF) as [Hb|Hb].
  - destruct (Nat.lt_ge_cases (String.length headers) MAXLINE) as [Hh|Hh].
    + left. repeat split; auto.
      rewrite <- Hheaders, <- Hpage. apply clienterror_fits; auto.
      * now rewrite Hpage.
      * now rewrite Hpage, Hheaders.
    + right. split; [now right|]. unfold clienterror. rewrite Hpage.
      destruct (Nat.leb_spec MAXBUF (String.length page)); [reflexivity|].
      rewrite Hheaders.
      destruct (Nat.leb_spec MAXLINE (String.length headers)); [reflexivity|lia].
  - right. split; [now left|]. unfold clienterror. rewrite Hpage.
    destruct (Nat.leb_spec MAXBUF (String.length page)); [reflexivity|lia].
Qed.

End Responder.

Lemma clienterror_whole_or_nothing_witness :
  clienterror (limits := csapp_8k) (calm "" "") 4 "404" "Not found" "No such page" =
  [EvWrite 4
     (cat ["HTTP/1.0 404 Not found"; CRLF;
           "Content-Type: text/html"; CRLF;
           "Content-Length: 188"; CRLF; CRLF]);
   EvWrite 4
     (cat ["<!DOCTYPE html>"; CRLF;
           "<html>"; CRLF;
           "<head><title>Tiny Error</title></head>"; CRLF;
           "<body bgcolor="; String DQUOTE "ffffff"; String DQUOTE ">"; CRLF;
           "<h1>404: Not found</h1>"; CRLF;
           "<p>No such page</p>"; CRLF;
           "<hr /><em>The Tiny Web server</em>"; CRLF;
           "</body></html>"; CRLF])].
Proof.
  destruct (clienterror_whole_or_nothing (limits := csapp_8k) (calm "" "") 4
              "404" "Not found" "No such page" eq_refl)
    as [_ [(_ & _ & H)|[[H|H] _]]].
  - exact H.
  - vm_compute in H. lia.
  - vm_compute in H. lia.
Defined.

(** C6.  For every answer of the origin, of any length, the relay loop ends
    (the bound on its rounds is not reached, whatever is added to it) and the
    bytes it passes to the client's descriptor, put end to end, are the
    answer: nothing lost, repeated, changed or moved.  It writes one
    non-empty buffer of at most [MAX_OBJECT_SIZE] bytes for each read, so as
    many as the length divided by the buffer size, rounded up (none when the
    origin closes at once), and it neither connects nor closes anything. *)
Theorem relay_delivers_every_byte (client_fd : Z) (response : string) (more : nat) :
  exists t,
    relay (S (String.length response + more)) client_fd MAX_OBJECT_SIZE response
      = Some t /\
    written client_fd t = response /\
    Forall (fun e => exists data, e = EvWrite client_fd data /\
                       0 < String.length data <= MAX_OBJECT_SIZE) t /\
    List.length t =
      (String.length response + MAX_OBJECT_SIZE - 1) / MAX_OBJECT_SIZE /\
    connects t = [] /\ (forall fd, closes fd t = 0).
Proof.
  destruct (relay_spec client_fd MAX_OBJECT_SIZE MAX_OBJECT_SIZE_pos
              (S (String.length response + more)) response)
    as (t & Ht & Hw & Hf & Hc); [lia|].
  exists t. destruct (relay_quiet _ _ _ _ _ Ht) as (Hq & Hcl & _).
  repeat split; auto.
Qed.

(** C8.  Run with no argument, or with two, [main] prints the usage message
    and binds no socket, and the status it exits with is 0. *)
Theorem main_usage_exits_with_zero (listen : string -> Z) :
  main listen 1 ["./proxy"] =
    ([MIgnoreSigpipe; MStderr (cat ["usage: ./proxy <port>"; String LF ""])],
     Some 0%Z) /\
  main listen 3 ["./proxy"; "8080"; "8081"] =
    ([MIgnoreSigpipe; MStderr (cat ["usage: ./proxy <port>"; String LF ""])],
     Some 0%Z) /\
  listens (fst (main listen 1 ["./proxy"])) = [] /\
  listens (fst (main listen 3 ["./proxy"; "8080"; "8081"])) = [].
Proof. repeat split. Qed.

(** C9.  [thread] closes the client's descriptor twice when [doit] gives up
    early (the client sends nothing, the request line is malformed, the
    method is not GET, the host is missing), since [doit] has closed it
    already; it closes it once when the request is relayed and when the
    origin cannot be reached. *)
Theorem thread_closes_client_twice :
  fst (thread_8k (calm "" "hello") 4) = [EvClose 4; EvClose 4] /\
  closes 4 (fst (thread_8k (calm ex_bad_request_line "hello") 4)) = 2 /\
  closes 4 (fst (thread_8k (calm ex_post "hello") 4)) = 2 /\
  closes 4 (fst (thread_8k (calm ex_no_host "hello") 4)) = 2 /\
  closes 4 (fst (thread_8k (calm ex_get "hello") 4)) = 1 /\
  closes 4 (fst (thread_8k (lonely ex_get) 4)) = 1.
Proof. vm_compute. repeat split. Qed.

Section Handler.

Context {limits : csapp_limits} {parser : http_parser}.
Variable w : world.
Variable client_fd : Z.

Lemma stop_trace_quiet (s : stop) (fd' : Z) :
  closes fd' (stop_trace w client_fd s) = 0 /\
  connects (stop_trace w client_fd s) = [].
Proof. destruct s; simpl; auto using clienterror_quiet. Qed.

Lemma stop_trace_elsewhere (s : stop) (fd' : Z) :
  client_fd <> fd' -> written fd' (stop_trace w client_fd s) = "".
Proof. destruct s; simpl; auto using clienterror_elsewhere. Qed.

(** C3.  For every request whose line the parser accepts and whose method is
    not exactly GET, the handler connects to no origin and writes to the
    client (one that takes the writes, with buffers that hold the 218 bytes
    of the page and the 78 of its headers) the 501 response, whose
    Content-Length is the decimal numeral of the byte length of the body
    that follows; then it closes the client's descriptor and returns -1. *)
Theorem non_get_answers_501 (buf rp : string) (p : parser_t) (method : string) :
  rio_readlineb (client_in w) MAXLINE = Some (buf, rp) ->
  parser_parse_line parser_new buf = (p, REQUEST) ->
  parser_retrieve p METHOD = Some method ->
  method <> "GET" ->
  client_up w = true ->
  218 < MAXBUF ->
  78 < MAXLINE ->
  let body :=
    error_body "501" "Not Implemented" "Proxy does not implement this method" in
  doit w client_fd =
    ([EvWrite client_fd
        (cat ["HTTP/1.0 501 Not Implemented"; CRLF;
              "Content-Type: text/html"; CRLF;
              "Content-Length: "; zu (String.length body); CRLF; CRLF]);
      EvWrite client_fd body;
      EvClose client_fd],
     Ok (-1)%Z) /\
  connects (fst (doit w client_fd)) = [] /\
  option_map Nat.of_uint (NilEmpty.uint_of_string (zu (String.length body))) =
    Some (String.length body).
Proof.
  intros Hr Hl Hm Hne Hup Hb Hh body.
  assert (Hdoit : doit w client_fd =
    ([EvWrite client_fd
        (error_headers "501" "Not Implemented" (String.length body));
      EvWrite client_fd body; EvClose client_fd], Ok (-1)%Z)).
  { unfold doit. rewrite Hr, Hl. cbn [parser_state_eqb negb]. rewrite Hm.
    apply String.eqb_neq in Hne. rewrite Hne. cbn [negb].
    rewrite clienterror_fits; auto. }
  rewrite Hdoit. split; [reflexivity|]. split; [reflexivity|].
  apply zu_reads_back.
Qed.

End Handler.

Lemma non_get_answers_501_witness :
  connects (fst (doit_8k (calm ex_post "hello") 4)) = [].
Proof.
  eapply (non_get_answers_501 (limits := csapp_8k) (parser := spec_parser)
            (calm ex_post "hello") 4).
  - vm_compute. reflexivity.
  - vm_compute. reflexivity.
  - vm_compute. reflexivity.
  - discriminate.
  - reflexivity.
  - apply Nat.ltb_lt. vm_compute. reflexivity.
  - apply Nat.ltb_lt. vm_compute. reflexivity.
Defined.

Section AcceptedGet.

Context {limits : csapp_limits} {parser : http_parser}.
Variable w : world.
Variable client_fd : Z.

(** The first line is read and accepted, the method is GET, the parser gives
    the host and the path, and the port is the parser's or "80". *)
Variables (buf rp : string) (p : parser_t) (host path port : string).
Hypothesis Hread : rio_readlineb (client_in w) MAXLINE = Some (buf, rp).
Hypothesis Hline : parser_parse_line parser_new buf = (p, REQUEST).
Hypothesis Hmethod : parser_retrieve p METHOD = Some "GET".
Hypothesis Hhost : parser_retrieve p HOST = Some host.
Hypothesis Hpath : parser_retrieve p PATH = Some path.
Hypothesis Hport :
  port = match parser_retrieve p PORT with
         | Some q => q
         | None => default_port
         end.

(** The header loop takes the headers [hs] from the client and stops for the
    reason [s], leaving [rest] unread. *)
Variables (hs : list header_t) (s : stop) (rest : string).
Hypothesis Hheaders : client_headers (S (String.length rp)) p rp = (hs, s, rest).

(** The run stays within its buffers. *)
Hypothesis Hdefined : snd (doit w client_fd) <> Fault.

Local Abbreviation request := (outbound path host port hs).
Local Abbreviation serverfd := (open_clientfd w host port).

Lemma doit_accepted_get :
  exists relayed,
    relay (S (String.length (origin_out w request))) client_fd MAX_OBJECT_SIZE
      (origin_out w request) = Some relayed /\
    written client_fd relayed = origin_out w request /\
    doit w client_fd =
      if (serverfd <? 0)%Z then
        ((stop_trace w client_fd s ++ [EvConnect host port] ++
          clienterror w client_fd "400" "Bad Request"
            "Proxy could not parse request headers" ++ [EvClose serverfd])%list,
         Ok (-1)%Z)
      else if negb (origin_up w) then
        ((stop_trace w client_fd s ++
          [EvConnect host port; EvWrite serverfd request;
           EvClose serverfd])%list,
         Ok (-1)%Z)
      else
        ((stop_trace w client_fd s ++
          [EvConnect host port; EvWrite serverfd request] ++ relayed ++
          [EvClose serverfd])%list,
         Ok 0%Z).
Proof.
  destruct (doit_get w client_fd buf rp p host path port
              Hread Hline Hmethod Hhost Hpath Hport Hdefined)
    as (hs' & s' & rest' & relayed & Hc & _ & _ & Hrel & Hdoit).
  rewrite Hheaders in Hc. inversion Hc; subst hs' s' rest'.
  exists relayed. split; [exact Hrel|]. split; [|exact Hdoit].
  destruct (relay_spec client_fd MAX_OBJECT_SIZE MAX_OBJECT_SIZE_pos
              (S (String.length (origin_out w request))) (origin_out w request))
    as (t & Ht & Hw & _); [lia|].
  rewrite Hrel in Ht. now inversion Ht; subst.
Qed.


(** Once connected, what the handler writes to the origin is the request. *)
Lemma doit_accepted_get_sends :
  (0 <= serverfd)%Z -> serverfd <> client_fd ->
  written serverfd (fst (doit w client_fd)) = request.
Proof.
  intros Hfd Hne.
  destruct doit_accepted_get as (relayed & Hrel & _ & Hdoit).
  rewrite Hdoit.
  destruct (relay_quiet _ _ _ _ _ Hrel) as (_ & _ & Hq).
  assert (Hs := stop_trace_elsewhere w client_fd s serverfd (not_eq_sym Hne)).
  destruct (Z.ltb_spec serverfd 0) as [|_]; [lia|].
  destruct (negb (origin_up w)); cbn [fst];
    rewrite written_app, Hs; cbn [written app append];
    rewrite Z.eqb_refl, ?written_app, ?Hq by exact Hne;
    cbn [written append]; now rewrite ?append_nil_r.
Qed.

Lemma named_outbound (n : string) :
  managed (mk_header n "") = true ->
  named n (outbound_headers host port hs) =
  named n [mk_header "Host" (cat [host; ":"; port]);
           mk_header "User-Agent"
             "Mozilla/5.0 (X11; Linux x86_64; rv:3.10.0) Gecko/20230411 Firefox/63.0.";
           mk_header "Connection" "close";
           mk_header "Proxy-Connection" "close"].
Proof.
  intros Hn. unfold outbound_headers.
  match goal with
  | |- named n (?a :: ?b :: ?c :: ?d :: passed hs) = _ =>
      change (a :: b :: c :: d :: passed hs)
        with ([a; b; c; d] ++ passed hs)%list
  end.
  unfold named at 1. rewrite filter_app. fold (named n (passed hs)).
  rewrite (named_passed n hs Hn). apply app_nil_r.
Qed.

(** C1, amended.  For every GET request whose line the parser accepts and
    gives the host and the path of (as it can for an absolute URI), on a run
    that stays within its buffers and reaches the origin, what is written to
    the origin is exactly [GET <path> HTTP/1.0], the headers and a blank
    line; among the headers there is exactly one named Host, one User-Agent,
    one Connection and one Proxy-Connection, each the line the proxy sets,
    whatever headers of those names the client sent. *)
Theorem outbound_request_shape :
  (0 <= serverfd)%Z ->
  serverfd <> client_fd ->
  let headers := outbound_headers host port hs in
  written serverfd (fst (doit w client_fd)) =
    cat ["GET "; path; " HTTP/1.0"; CRLF] ++
    cat (map header_text headers) ++ CRLF /\
  map header_text (named "Host" headers) =
    [cat ["Host: "; host; ":"; port; CRLF]] /\
  map header_text (named "User-Agent" headers) = [header_user_agent] /\
  map header_text (named "Connection" headers) = [header_conn] /\
  map header_text (named "Proxy-Connection" headers) = [header_proxy].
Proof.
  intros Hfd Hne headers. split.
  - now apply doit_accepted_get_sends.
  - unfold headers. rewrite !named_outbound by reflexivity.
    split; [|repeat split].
    unfold named, header_text. cbn [filter name value String.eqb Ascii.eqb
      Bool.eqb map cat].
    repeat rewrite append_assoc. repeat rewrite append_nil_r. reflexivity.
Qed.

(** C2.  The four names are compared by exact, case-sensitive equality of
    strings: a header is dropped if and only if its name is one of them.  So
    on every such run, a client header whose name is none of the four as
    written (a lowercase [host], say) is passed on as [name: value] in the
    request written to the origin, after the proxy's own Host line. *)
Theorem unmanaged_name_is_forwarded (h : header_t) :
  In h hs ->
  name h <> "Host" ->
  name h <> "User-Agent" ->
  name h <> "Connection" ->
  name h <> "Proxy-Connection" ->
  (0 <= serverfd)%Z ->
  serverfd <> client_fd ->
  (forall h', managed h' = true <->
     name h' = "Host" \/ name h' = "User-Agent" \/
     name h' = "Connection" \/ name h' = "Proxy-Connection") /\
  managed h = false /\
  exists before between after,
    written serverfd (fst (doit w client_fd)) =
      before ++ cat ["Host: "; host; ":"; port; CRLF] ++ between ++
      cat [name h; ": "; value h; CRLF] ++ after.
Proof.
  intros Hin H1 H2 H3 H4 Hfd Hne.
  assert (Hm : managed h = false) by (apply managed_false_iff; auto).
  split; [exact managed_iff|]. split; [exact Hm|].
  assert (Hp : In h (passed hs)).
  { unfold passed. apply filter_In. split; [exact Hin|]. now rewrite Hm. }
  apply in_split in Hp as (l1 & l2 & Hp).
  rewrite doit_accepted_get_sends by assumption.
  exists (cat ["GET "; path; " HTTP/1.0"; CRLF]),
    (header_user_agent ++ header_conn ++ header_proxy ++ cat (map header_text l1)),
    (cat (map header_text l2) ++ CRLF).
  unfold outbound, outbound_headers. rewrite Hp.
  cbn [map cat]. rewrite cat_headers_app. cbn [map cat].
  unfold header_text, header_user_agent, header_conn, header_proxy.
  cbn [cat name value].
  repeat rewrite append_assoc. repeat rewrite append_nil_r.
  reflexivity.
Qed.


(** C10.  For every GET request whose line the parser accepts and gives the
    host and the path of, with a malformed line in its header section, on a
    run that stays within its buffers, with a client that takes the writes
    and an origin that is reached and takes the request: the handler writes
    to the client the whole 400 response (headers with the Content-Length of
    the page, then the page), then connects, sends the request built before
    the malformed line, and relays all of the origin's answer, which so
    reaches the client after the error page; it returns 0. *)
Theorem malformed_header_error_then_relay :
  s = AtMalformed ->
  client_up w = true ->
  origin_up w = true ->
  (0 <= serverfd)%Z ->
  215 < MAXBUF ->
  74 < MAXLINE ->
  let body :=
    error_body "400" "Bad Request" "Proxy could not parse request headers" in
  let page_headers :=
    cat ["HTTP/1.0 400 Bad Request"; CRLF;
         "Content-Type: text/html"; CRLF;
         "Content-Length: "; zu (String.length body); CRLF; CRLF] in
  exists relayed,
    doit w client_fd =
      ((EvWrite client_fd page_headers :: EvWrite client_fd body ::
        EvConnect host port ::
        EvWrite serverfd (outbound path host port hs) ::
        relayed ++ [EvClose serverfd])%list,
       Ok 0%Z) /\
    written client_fd relayed = origin_out w (outbound path host port hs) /\
    (serverfd <> client_fd ->
     written client_fd (fst (doit w client_fd)) =
       page_headers ++ body ++ origin_out w (outbound path host port hs)).
Proof.
  intros Hs Hcup Houp Hfd Hb Hl body page_headers.
  destruct doit_accepted_get as (relayed & Hrel & Hw & Hdoit).
  exists relayed.
  assert (Hpage : stop_trace w client_fd s =
                  [EvWrite client_fd page_headers; EvWrite client_fd body]).
  { rewrite Hs. cbn [stop_trace]. now rewrite clienterror_fits. }
  assert (Heq : doit w client_fd =
      ((EvWrite client_fd page_headers :: EvWrite client_fd body ::
        EvConnect host port ::
        EvWrite serverfd (outbound path host port hs) ::
        relayed ++ [EvClose serverfd])%list,
       Ok 0%Z)).
  { rewrite Hdoit, Hpage, Houp.
    destruct (Z.ltb_spec serverfd 0) as [|_]; [lia|]. reflexivity. }
  split; [exact Heq|]. split; [exact Hw|].
  intros Hne. rewrite Heq. cbn [fst written]. rewrite Z.eqb_refl.
  apply Z.eqb_neq in Hne. rewrite Hne, written_app, Hw.
  cbn [written]. now rewrite append_nil_r.
Qed.

End AcceptedGet.

Section MissingField.

Context {limits : csapp_limits} {parser : http_parser}.
Variable w : world.
Variable client_fd : Z.

(** C4, amended.  For every accepted GET request line from which the host or
    the path cannot be retrieved, the handler writes nothing to the client
    and connects to no origin: all it does is close the client's descriptor
    and return -1. *)
Theorem missing_field_closes_silently (buf rp : string) (p : parser_t) :
  rio_readlineb (client_in w) MAXLINE = Some (buf, rp) ->
  parser_parse_line parser_new buf = (p, REQUEST) ->
  parser_retrieve p METHOD = Some "GET" ->
  parser_retrieve p HOST = None \/ parser_retrieve p PATH = None ->
  doit w client_fd = ([EvClose client_fd], Ok (-1)%Z) /\
  written client_fd (fst (doit w client_fd)) = "" /\
  connects (fst (doit w client_fd)) = [].
Proof.
  intros Hr Hl Hm Hmiss.
  assert (Hdoit : doit w client_fd = ([EvClose client_fd], Ok (-1)%Z)).
  { unfold doit. rewrite Hr, Hl. cbn [parser_state_eqb negb]. rewrite Hm.
    change ("GET" =? "GET") with true. cbn [negb].
    destruct Hmiss as [Hh|Hp].
    - now rewrite Hh.
    - rewrite Hp. now destruct (parser_retrieve p HOST). }
  rewrite Hdoit. repeat split.
Qed.

End MissingField.

Lemma missing_field_closes_silently_witness :
  doit_8k (calm ex_no_host "hello") 4 = ([EvClose 4], Ok (-1)%Z).
Proof.
  apply (missing_field_closes_silently (limits := csapp_8k)
           (parser := spec_parser) (calm ex_no_host "hello") 4
           (cat ["GET /index.html HTTP/1.0"; CRLF]) CRLF
           (fst (SpecParser.parse_line SpecParser.fresh
                   (cat ["GET /index.html HTTP/1.0"; CRLF])))).
  - vm_compute. reflexivity.
  - vm_compute. reflexivity.
  - vm_compute. reflexivity.
  - left. vm_compute. reflexivity.
Defined.

(** C4 as stated fails: the request line [GET /index.html HTTP/1.0] is
    accepted and has no host, and the client is sent nothing, no 400 page
    either. *)
Lemma missing_host_gets_no_400 :
  snd (SpecParser.parse_line SpecParser.fresh
         (cat ["GET /index.html HTTP/1.0"; CRLF])) = REQUEST /\
  SpecParser.retrieve
    (fst (SpecParser.parse_line SpecParser.fresh
            (cat ["GET /index.html HTTP/1.0"; CRLF]))) HOST = None /\
  doit_8k (calm ex_no_host "hello") 4 = ([EvClose 4], Ok (-1)%Z) /\
  written 4 (fst (doit_8k (calm ex_no_host "hello") 4)) = "".
Proof. vm_compute. repeat split. Qed.

(** C1 as stated fails: a well-formed GET request that names its host in a
    valid Host header, and not in the request line, gets no outbound request
    at all; the handler gives up before it reads the header. *)
Lemma host_header_alone_is_dropped :
  snd (SpecParser.parse_line SpecParser.fresh
         (cat ["GET /index.html HTTP/1.1"; CRLF])) = REQUEST /\
  SpecParser.header_line (cat ["Host: example.com"; CRLF]) =
    Some (mk_header "Host" "example.com") /\
  doit_8k (calm ex_host_only "hello") 4 = ([EvClose 4], Ok (-1)%Z) /\
  connects (fst (doit_8k (calm ex_host_only "hello") 4)) = [] /\
  written 5 (fst (doit_8k (calm ex_host_only "hello") 4)) = "".
Proof. vm_compute. repeat split. Qed.


Lemma outbound_request_shape_witness :
  written 5 (fst (doit_8k (calm ex_get "hello") 4)) =
  cat ["GET "; "/index.html"; " HTTP/1.0"; CRLF] ++
  cat (map header_text (outbound_headers "example.com" "8080" ex_get_headers)) ++
  CRLF.
Proof.
  refine (proj1 (outbound_request_shape (limits := csapp_8k)
                   (parser := spec_parser) (calm ex_get "hello") 4
                   ex_get_line ex_get_tail
                   (fst (SpecParser.parse_line SpecParser.fresh ex_get_line))
                   "example.com" "/index.html" "8080" _ _ _ _ _ _
                   ex_get_headers AtBlank "" _ _ _ _));
    vm_compute; try reflexivity; discriminate.
Defined.

Lemma unmanaged_name_is_forwarded_witness :
  exists before between after,
    written 5 (fst (doit_8k (calm ex_get "hello") 4)) =
      before ++ cat ["Host: "; "example.com"; ":"; "8080"; CRLF] ++ between ++
      cat ["host"; ": "; "other"; CRLF] ++ after.
Proof.
  refine (proj2 (proj2 (unmanaged_name_is_forwarded (limits := csapp_8k)
                   (parser := spec_parser) (calm ex_get "hello") 4
                   ex_get_line ex_get_tail
                   (fst (SpecParser.parse_line SpecParser.fresh ex_get_line))
                   "example.com" "/index.html" "8080" _ _ _ _ _ _
                   ex_get_headers AtBlank "" _ _
                   (mk_header "host" "other") _ _ _ _ _ _ _)));
    try (left; reflexivity);
    vm_compute; try reflexivity; discriminate.
Defined.


Lemma malformed_header_error_then_relay_witness :
  written 4 (fst (doit_8k (calm ex_bad_header "hello") 4)) =
  error_headers "400" "Bad Request" 215 ++
  error_body "400" "Bad Request" "Proxy could not parse request headers" ++
  "hello".
Proof.
  pose proof (malformed_header_error_then_relay (limits := csapp_8k)
                (parser := spec_parser) (calm ex_bad_header "hello") 4
                ex_bad_header_line ex_bad_header_tail
                (fst (SpecParser.parse_line SpecParser.fresh ex_bad_header_line))
                "example.com" "/" "80"
                ltac:(vm_compute; reflexivity) ltac:(vm_compute; reflexivity)
                ltac:(vm_compute; reflexivity) ltac:(vm_compute; reflexivity)
                ltac:(vm_compute; reflexivity) ltac:(vm_compute; reflexivity)
                [mk_header "Accept" "*/*"] AtMalformed
                (cat ["X-Test: 1"; CRLF; CRLF])
                ltac:(vm_compute; reflexivity) ltac:(vm_compute; discriminate)
                eq_refl eq_refl eq_refl ltac:(vm_compute; discriminate)
                ltac:(apply Nat.ltb_lt; vm_compute; reflexivity)
                ltac:(apply Nat.ltb_lt; vm_compute; reflexivity))
    as (relayed & _ & _ & H).
  apply H. discriminate.
Defined.

(** * Further properties of the handler *)

(** ** Lengths *)

Lemma length_cat_headers (hs : list header_t) :
  String.length (cat (map header_text hs)) =
  list_sum (map (fun h => String.length (name h) + String.length (value h) + 4) hs).
Proof.
  induction hs as [|h hs IH]; [reflexivity|].
  cbn [map cat list_sum]. rewrite length_append, IH.
  unfold header_text. cbn [cat]. rewrite !length_append. simpl. lia.
Qed.

Lemma length_outbound (path host port : string) (hs : list header_t) :
  String.length (outbound path host port hs) =
  155 + String.length path + String.length host + String.length port +
  String.length (cat (map header_text (passed hs))).
Proof.
  unfold outbound, outbound_headers. cbn [map cat].
  unfold header_text at 1 2 3 4. cbn [cat name value].
  rewrite !length_append. simpl. lia.
Qed.

Lemma length_error_body (errnum shortmsg longmsg : string) :
  String.length (error_body errnum shortmsg longmsg) =
  164 + String.length errnum + String.length shortmsg + String.length longmsg.
Proof.
  unfold error_body. cbn [cat]. rewrite !length_append. simpl. lia.
Qed.

Lemma length_error_headers (errnum shortmsg : string) (bodylen : nat) :
  String.length (error_headers errnum shortmsg bodylen) =
  57 + String.length errnum + String.length shortmsg +
  String.length (zu bodylen).
Proof.
  unfold error_headers. cbn [cat]. rewrite !length_append. simpl. lia.
Qed.

Section ResponderBounds.

Context {limits : csapp_limits}.
Variable w : world.

(** X1.  [clienterror] is silent exactly when the three arguments are too
    long for its buffers: the page is 164 bytes and the header block 57 bytes
    longer than the texts put into them (the header block holds the numeral
    of the page's length too).  Nothing is written if and only if the page
    would reach [MAXBUF] bytes or the header block [MAXLINE] bytes. *)
Theorem clienterror_silent_iff (fd : Z) (errnum shortmsg longmsg : string) :
  let bodylen :=
    164 + String.length errnum + String.length shortmsg +
    String.length longmsg in
  clienterror w fd errnum shortmsg longmsg = [] <->
  MAXBUF <= bodylen \/
  MAXLINE <= 57 + String.length errnum + String.length shortmsg +
             String.length (zu bodylen).
Proof.
  intros bodylen. unfold clienterror.
  rewrite length_error_headers, length_error_body. fold bodylen.
  destruct (Nat.leb_spec MAXBUF bodylen) as [Hb|Hb].
  - split; auto.
  - destruct (Nat.leb_spec MAXLINE
                (57 + String.length errnum + String.length shortmsg +
                 String.length (zu bodylen))) as [Hh|Hh].
    + split; auto.
    + split.
      * destruct (negb (client_up w)); discriminate.
      * intros [H|H]; lia.
Qed.

End ResponderBounds.

Section GetRun.

Context {limits : csapp_limits} {parser : http_parser}.
Variable w : world.
Variable client_fd : Z.

Variables (buf rp : string) (p : parser_t) (host path port : string).
Hypothesis Hread : rio_readlineb (client_in w) MAXLINE = Some (buf, rp).
Hypothesis Hline : parser_parse_line parser_new buf = (p, REQUEST).
Hypothesis Hmethod : parser_retrieve p METHOD = Some "GET".
Hypothesis Hhost : parser_retrieve p HOST = Some host.
Hypothesis Hpath : parser_retrieve p PATH = Some path.
Hypothesis Hport :
  port = match parser_retrieve p PORT with
         | Some q => q
         | None => default_port
         end.
Variables (hs : list header_t) (s : stop) (rest : string).
Hypothesis Hheaders : client_headers (S (String.length rp)) p rp = (hs, s, rest).
Hypothesis Hdefined : snd (doit w client_fd) <> Fault.

Local Abbreviation request := (outbound path host port hs).
Local Abbreviation serverfd := (open_clientfd w host port).

Lemma get_run :
  exists relayed,
    written client_fd relayed = origin_out w request /\
    connects relayed = [] /\
    (forall fd, closes fd relayed = 0) /\
    (forall fd, fd <> client_fd -> written fd relayed = "") /\
    doit w client_fd =
      if (serverfd <? 0)%Z then
        ((stop_trace w client_fd s ++ [EvConnect host port] ++
          clienterror w client_fd "400" "Bad Request"
            "Proxy could not parse request headers" ++ [EvClose serverfd])%list,
         Ok (-1)%Z)
      else if negb (origin_up w) then
        ((stop_trace w client_fd s ++
          [EvConnect host port; EvWrite serverfd request;
           EvClose serverfd])%list,
         Ok (-1)%Z)
      else
        ((stop_trace w client_fd s ++
          [EvConnect host port; EvWrite serverfd request] ++ relayed ++
          [EvClose serverfd])%list,
         Ok 0%Z).
Proof.
  destruct (doit_accepted_get w client_fd buf rp p host path port
              Hread Hline Hmethod Hhost Hpath Hport hs s rest Hheaders Hdefined)
    as (relayed & Hrel & Hw & Hdoit).
  destruct (relay_quiet _ _ _ _ _ Hrel) as (Hq & Hcl & Hel).
  exists relayed. repeat split; auto.
Qed.

Lemma get_run_stop :
  s = AtEof \/ s = AtBlank \/ s = AtMalformed.
Proof.
  destruct (doit_get w client_fd buf rp p host path port
              Hread Hline Hmethod Hhost Hpath Hport Hdefined)
    as (hs' & s' & rest' & _ & Hc & Hs & _).
  rewrite Hheaders in Hc. now inversion Hc; subst.
Qed.

(** X2.  A GET request whose header section ends at the blank line, or at
    the end of the stream without one, on a run that stays within its
    buffers, reaches the origin and is taken by it: the handler connects,
    writes the outbound request, copies the origin's answer to the client and
    closes the origin's descriptor, in this order and nothing else; the
    client is written exactly the origin's answer and the origin exactly the
    request; the value returned is 0. *)
Theorem get_is_relayed :
  s <> AtMalformed ->
  (0 <= serverfd)%Z ->
  serverfd <> client_fd ->
  origin_up w = true ->
  exists relayed,
    doit w client_fd =
      ((EvConnect host port :: EvWrite serverfd (outbound path host port hs) ::
        relayed ++ [EvClose serverfd])%list,
       Ok 0%Z) /\
    written client_fd (fst (doit w client_fd)) =
      origin_out w (outbound path host port hs) /\
    written serverfd (fst (doit w client_fd)) = outbound path host port hs.
Proof.
  intros Hs Hfd Hne Hup.
  destruct get_run as (relayed & Hw & _ & _ & Hel & Hdoit).
  assert (Hst : stop_trace w client_fd s = []).
  { destruct get_run_stop as [-> | [-> | ->]]; try reflexivity. congruence. }
  exists relayed. rewrite Hdoit, Hst, Hup.
  destruct (Z.ltb_spec serverfd 0) as [|_]; [lia|]. cbn [negb app fst].
  split; [reflexivity|]. cbn [written]. rewrite Z.eqb_refl.
  apply Z.eqb_neq in Hne as Hne'. rewrite Hne'.
  rewrite !written_app, Hw, (Hel _ Hne). cbn [written].
  now rewrite !append_nil_r.
Qed.

(** X3.  When the origin cannot be reached (a negative descriptor from
    [open_clientfd]) the handler, on a run within its buffers and with a
    client that takes the writes, sends the client the 400 page (after the
    one for a malformed header line, if there was one), writes nothing to
    any origin, calls [close] on the negative descriptor and returns -1;
    [thread] then closes the client's descriptor, once. *)
Theorem connect_failure_answers_400 :
  (serverfd < 0)%Z ->
  (0 <= client_fd)%Z ->
  client_up w = true ->
  215 < MAXBUF ->
  74 < MAXLINE ->
  let body :=
    error_body "400" "Bad Request" "Proxy could not parse request headers" in
  let page_headers :=
    cat ["HTTP/1.0 400 Bad Request"; CRLF;
         "Content-Type: text/html"; CRLF;
         "Content-Length: "; zu (String.length body); CRLF; CRLF] in
  doit w client_fd =
    ((stop_trace w client_fd s ++
      [EvConnect host port; EvWrite client_fd page_headers;
       EvWrite client_fd body; EvClose serverfd])%list,
     Ok (-1)%Z) /\
  written serverfd (fst (doit w client_fd)) = "" /\
  fst (thread w client_fd) = (fst (doit w client_fd) ++ [EvClose client_fd])%list /\
  closes client_fd (fst (thread w client_fd)) = 1.
Proof.
  intros Hfd Hcl Hup Hb Hl body page_headers.
  destruct get_run as (relayed & _ & _ & _ & _ & Hdoit).
  assert (Hne : client_fd <> serverfd) by lia.
  assert (Heq : doit w client_fd =
    ((stop_trace w client_fd s ++
      [EvConnect host port; EvWrite client_fd page_headers;
       EvWrite client_fd body; EvClose serverfd])%list,
     Ok (-1)%Z)).
  { rewrite Hdoit. destruct (Z.ltb_spec serverfd 0) as [_|]; [|lia].
    rewrite clienterror_fits by assumption. reflexivity. }
  assert (Hc := proj1 (stop_trace_quiet w client_fd s client_fd)).
  apply Z.eqb_neq in Hne as Hne'.
  assert (Hne2 : (serverfd =? client_fd)%Z = false) by (apply Z.eqb_neq; lia).
  split; [exact Heq|]. unfold thread. rewrite Heq. cbn [fst].
  repeat split.
  - rewrite written_app, (stop_trace_elsewhere w client_fd s serverfd Hne).
    cbn [written append]. now rewrite Hne'.
  - rewrite !closes_app, Hc. cbn [closes]. rewrite Hne2, Z.eqb_refl.
    reflexivity.
Qed.

(** X4.  When the write of the request to the origin fails, the handler
    gives up: it closes the origin's descriptor, relays nothing (the client
    is written nothing but the page for a malformed header line, if there
    was one) and returns -1. *)
Theorem send_failure_gives_up :
  (0 <= serverfd)%Z ->
  serverfd <> client_fd ->
  origin_up w = false ->
  doit w client_fd =
    ((stop_trace w client_fd s ++
      [EvConnect host port; EvWrite serverfd (outbound path host port hs);
       EvClose serverfd])%list,
     Ok (-1)%Z) /\
  written client_fd (fst (doit w client_fd)) =
    written client_fd (stop_trace w client_fd s) /\
  (s <> AtMalformed -> written client_fd (fst (doit w client_fd)) = "").
Proof.
  intros Hfd Hne Hup.
  destruct get_run as (relayed & _ & _ & _ & _ & Hdoit).
  assert (Heq : doit w client_fd =
    ((stop_trace w client_fd s ++
      [EvConnect host port; EvWrite serverfd (outbound path host port hs);
       EvClose serverfd])%list,
     Ok (-1)%Z)).
  { rewrite Hdoit, Hup. destruct (Z.ltb_spec serverfd 0) as [|_]; [lia|].
    reflexivity. }
  apply Z.eqb_neq in Hne as Hne'.
  assert (Hw : written client_fd (fst (doit w client_fd)) =
               written client_fd (stop_trace w client_fd s)).
  { rewrite Heq. cbn [fst]. rewrite written_app. cbn [written].
    now rewrite Hne', append_nil_r. }
  split; [exact Heq|]. split; [exact Hw|].
  intros Hs. rewrite Hw.
  destruct get_run_stop as [-> | [-> | ->]]; try reflexivity. congruence.
Qed.

(** X5.  On every run of a GET request that gets as far as the dial, the
    descriptor [open_clientfd] answered is closed exactly once by the
    handler, also when it is the negative value of a failed connection, and
    the client's descriptor is not closed by the handler at all (that is left
    to [thread]). *)
Theorem origin_descriptor_closed_once :
  serverfd <> client_fd ->
  closes serverfd (fst (doit w client_fd)) = 1 /\
  closes client_fd (fst (doit w client_fd)) = 0.
Proof.
  intros Hne.
  destruct get_run as (relayed & _ & _ & Hcl & _ & Hdoit).
  apply Z.eqb_neq in Hne as Hne'.
  assert (Hs := fun fd => proj1 (stop_trace_quiet w client_fd s fd)).
  assert (He := fun fd => proj1 (clienterror_quiet w client_fd fd "400"
                  "Bad Request" "Proxy could not parse request headers")).
  rewrite Hdoit.
  destruct (serverfd <? 0)%Z; [|destruct (negb (origin_up w))]; cbn [fst];
    rewrite !closes_app, !Hs; cbn [closes app];
    rewrite ?closes_app, ?He, ?Hcl; cbn [closes];
    rewrite Z.eqb_refl, ?Hne'; split; reflexivity.
Qed.

(** X6.  The client's headers that are passed on keep the order they came
    in: for two such headers, the first sent before the second, the request
    written to the origin is the request line and the proxy's four headers,
    the headers passed on from before the first, the first, those from
    between the two, the second, those from after it and the blank line. *)
Theorem passed_headers_keep_their_order
    (h1 h2 : header_t) (l1 l2 l3 : list header_t) :
  hs = (l1 ++ h1 :: l2 ++ h2 :: l3)%list ->
  managed h1 = false ->
  managed h2 = false ->
  (0 <= serverfd)%Z ->
  serverfd <> client_fd ->
  written serverfd (fst (doit w client_fd)) =
    cat ["GET "; path; " HTTP/1.0"; CRLF;
         "Host: "; host; ":"; port; CRLF;
         header_user_agent; header_conn; header_proxy] ++
    cat (map header_text (passed l1)) ++ header_text h1 ++
    cat (map header_text (passed l2)) ++ header_text h2 ++
    cat (map header_text (passed l3)) ++ CRLF.
Proof.
  intros Hhs Hm1 Hm2 Hfd Hne.
  rewrite (doit_accepted_get_sends w client_fd buf rp p host path port
             Hread Hline Hmethod Hhost Hpath Hport hs s rest Hheaders Hdefined
             Hfd Hne).
  assert (Hp : passed hs =
               (passed l1 ++ h1 :: passed l2 ++ h2 :: passed l3)%list).
  { rewrite Hhs. unfold passed. rewrite filter_app. cbn [filter].
    rewrite Hm1. cbn [negb]. rewrite filter_app. cbn [filter].
    now rewrite Hm2. }
  unfold outbound, outbound_headers. rewrite Hp.
  cbn [map cat]. rewrite cat_headers_app. cbn [map cat].
  rewrite cat_headers_app. cbn [map cat].
  unfold header_text at 1 2 3 4. unfold header_user_agent, header_conn, header_proxy.
  cbn [cat name value].
  repeat rewrite append_assoc. repeat rewrite append_nil_r.
  reflexivity.
Qed.

End GetRun.

Section EveryRun.

Context {limits : csapp_limits} {parser : http_parser}.
Variable w : world.
Variable client_fd : Z.

(** Every run of [doit]: an early exit; undefined behaviour before any
    connection; or a dial, for an accepted GET request line that gives the
    host and the path, with the value returned. *)
Lemma doit_outcomes :
  (exists t,
     doit w client_fd = ((t ++ [EvClose client_fd])%list, Ok (-1)%Z) /\
     closes client_fd t = 0 /\ connects t = []) \/
  (exists t, doit w client_fd = (t, Fault) /\ connects t = []) \/
  (exists buf rp p host path port t1 t2 r,
     rio_readlineb (client_in w) MAXLINE = Some (buf, rp) /\
     parser_parse_line parser_new buf = (p, REQUEST) /\
     parser_retrieve p METHOD = Some "GET" /\
     parser_retrieve p HOST = Some host /\
     parser_retrieve p PATH = Some path /\
     port = match parser_retrieve p PORT with
            | Some q => q
            | None => default_port
            end /\
     doit w client_fd = ((t1 ++ EvConnect host port :: t2)%list, Ok r) /\
     connects t1 = [] /\ connects t2 = [] /\
     ((r = 0%Z /\ (0 <= open_clientfd w host port)%Z /\ origin_up w = true) \/
      (r = (-1)%Z /\
       ((open_clientfd w host port < 0)%Z \/ origin_up w = false)))).
Proof.
  unfold doit.
  destruct (rio_readlineb (client_in w) MAXLINE) as [[buf rp]|] eqn:Er.
  2:{ left. exists []. now repeat split. }
  destruct (parser_parse_line parser_new buf) as [p st] eqn:El.
  destruct (negb (parser_state_eqb st REQUEST)) eqn:Est.
  { left. eexists. split; [reflexivity|]. apply clienterror_quiet. }
  assert (st = REQUEST) by (destruct st; simpl in Est; congruence). subst st.
  destruct (parser_retrieve p METHOD) as [method|] eqn:Em.
  2:{ left. exists []. now repeat split. }
  destruct (negb (method =? "GET")) eqn:Eg.
  { left. eexists. split; [reflexivity|]. apply clienterror_quiet. }
  apply negb_false_iff, String.eqb_eq in Eg. subst method.
  destruct (parser_retrieve p HOST) as [host|] eqn:Eh.
  2:{ left. exists []. now repeat split. }
  destruct (parser_retrieve p PATH) as [path|] eqn:Ep.
  2:{ left. exists []. now repeat split. }
  set (port := match parser_retrieve p PORT with
               | Some q => q
               | None => default_port
               end).
  destruct (sprintf MAXBUF _) as [r0|]; [|right; left; exists []; now split].
  destruct (sprintf MAXLINE _) as [hh|]; [|right; left; exists []; now split].
  destruct (strcat MAXBUF r0 hh) as [r1|]; [|right; left; exists []; now split].
  destruct (strcat MAXBUF r1 _) as [r2|]; [|right; left; exists []; now split].
  destruct (strcat MAXBUF r2 _) as [r3|]; [|right; left; exists []; now split].
  destruct (strcat MAXBUF r3 _) as [r4|]; [|right; left; exists []; now split].
  assert (Hq := other_headers_quiet w (S (String.length rp)) client_fd client_fd
                  p rp r4).
  assert (Hfed := other_headers_fed w (S (String.length rp)) client_fd p rp r4
                    (Nat.lt_succ_diag_r _)).
  destruct (other_headers w (S (String.length rp)) client_fd p rp r4)
    as [t [[r5 rest]| |]]; cbn [fst snd] in Hq, Hfed; destruct Hq as [Hq1 Hq2].
  2:{ right; left. exists t. now split. }
  2:{ congruence. }
  destruct (strcat MAXBUF r5 CRLF) as [r6|].
  2:{ right; left. exists t. now split. }
  right; right.
  exists buf, rp, p, host, path, port, t.
  destruct (Z.ltb_spec (open_clientfd w host port) 0) as [Hneg|Hpos].
  { eexists. eexists. repeat split; auto.
    rewrite connects_app.
    now destruct (clienterror_quiet w client_fd 0 "400" "Bad Request"
                    "Proxy could not parse request headers") as [_ ->]. }
  destruct (origin_up w) eqn:Eup; cbn [negb].
  2:{ eexists. eexists. repeat split; auto. }
  destruct (relay_spec client_fd MAX_OBJECT_SIZE MAX_OBJECT_SIZE_pos
              (S (String.length (origin_out w r6))) (origin_out w r6))
    as (t' & Hrel & _); [lia|].
  rewrite Hrel. destruct (relay_quiet _ _ _ _ _ Hrel) as (Hc & Hcl & _).
  eexists. eexists. repeat split; auto.
  simpl. rewrite connects_app, Hc. reflexivity.
Qed.

(** X7.  The value [doit] returns is 0 exactly on the runs that connect to an
    origin and get the request written to it: on every run, it returns 0 if
    and only if it has dialled one origin, [open_clientfd] answered a
    descriptor that is not negative, and the write of the request
    succeeded. *)
Theorem doit_returns_zero_iff :
  snd (doit w client_fd) = Ok 0%Z <->
  exists host port,
    connects (fst (doit w client_fd)) = [(host, port)] /\
    (0 <= open_clientfd w host port)%Z /\
    origin_up w = true.
Proof.
  destruct doit_outcomes
    as [(t & Hd & _ & Hq)|[(t & Hd & Hq)|
        (buf & rp & p & host & path & port & t1 & t2 & r & _ & _ & _ & _ & _ &
         _ & Hd & Hq1 & Hq2 & Hr)]];
    rewrite Hd; cbn [fst snd].
  - split; [discriminate|]. intros (host & port & Hc & _).
    rewrite connects_app, Hq in Hc. discriminate.
  - split; [discriminate|]. intros (host & port & Hc & _).
    rewrite Hq in Hc. discriminate.
  - assert (Hc : connects (t1 ++ EvConnect host port :: t2)%list =
                 [(host, port)]).
    { rewrite connects_app, Hq1. simpl. now rewrite Hq2. }
    rewrite Hc. split.
    + intros Hz. inversion Hz; subst r. exists host, port.
      destruct Hr as [(_ & Hfd & Hup)|(Hr & _)]; [auto|discriminate].
    + intros (host' & port' & Heq & Hfd & Hup). inversion Heq; subst host' port'.
      destruct Hr as [(-> & _)|(_ & [Hneg|Hdown])];
        [reflexivity | lia | congruence].
Qed.

(** X8.  An origin is dialled only for an accepted request line whose method
    is GET, at most once, at the host the parser gives for that line alone
    and at the port it gives for it, or at port 80 when it gives none: no
    header of the client has a part in where the request goes. *)
Theorem dial_is_decided_by_request_line (host port : string) :
  In (host, port) (connects (fst (doit w client_fd))) ->
  connects (fst (doit w client_fd)) = [(host, port)] /\
  exists buf rp p,
    rio_readlineb (client_in w) MAXLINE = Some (buf, rp) /\
    parser_parse_line parser_new buf = (p, REQUEST) /\
    parser_retrieve p METHOD = Some "GET" /\
    parser_retrieve p HOST = Some host /\
    port = match parser_retrieve p PORT with
           | Some q => q
           | None => "80"
           end.
Proof.
  destruct doit_outcomes
    as [(t & Hd & _ & Hq)|[(t & Hd & Hq)|
        (buf & rp & p & host' & path & port' & t1 & t2 & r & Hr & Hl & Hm & Hh &
         _ & Hp & Hd & Hq1 & Hq2 & _)]];
    rewrite Hd; cbn [fst].
  - rewrite connects_app, Hq. simpl. tauto.
  - rewrite Hq. simpl. tauto.
  - rewrite connects_app, Hq1. simpl. rewrite Hq2.
    intros [H|[]]. inversion H; subst host' port'.
    split; [reflexivity|]. exists buf, rp, p. repeat split; auto.
Qed.

(** X9.  On every run that stays within its buffers, [thread] closes the
    client's descriptor twice when [doit] has dialled no origin, and once
    when it has dialled one (whose descriptor is not the client's): two
    closes less the number of dials. *)
Theorem thread_closes_by_dial :
  snd (doit w client_fd) <> Fault ->
  (forall host port,
     In (host, port) (connects (fst (doit w client_fd))) ->
     open_clientfd w host port <> client_fd) ->
  closes client_fd (fst (thread w client_fd)) =
  2 - List.length (connects (fst (doit w client_fd))).
Proof.
  intros Hnf Hfd.
  destruct (thread_closes w client_fd Hnf) as [[Hc Hcl]|(host & port & Hc & Hcl)].
  - now rewrite Hcl, Hc.
  - rewrite Hc in *. rewrite Hcl; [reflexivity|].
    apply Hfd. now left.
Qed.

End EveryRun.

Section Bounds.

Context {limits : csapp_limits} {parser : http_parser}.
Variable w : world.
Variable client_fd : Z.

Lemma other_headers_lines_fit (fuel : nat) :
  forall (p : parser_t) (rp request : string) (t : trace) (request' rest : string),
  other_headers w fuel client_fd p rp request = (t, Ok (request', rest)) ->
  exists hs s,
    client_headers fuel p rp = (hs, s, rest) /\
    Forall (fun h => String.length (header_text h) < MAXLINE) (passed hs).
Proof.
  induction fuel as [|fuel IH]; intros p rp request t request' rest H.
  - discriminate.
  - simpl in H |- *.
    destruct (rio_readlineb rp MAXLINE) as [[buf rp1]|].
    2:{ inversion H; subst. exists [], AtEof. split; [reflexivity|constructor]. }
    destruct (buf =? CRLF).
    { inversion H; subst. exists [], AtBlank. split; [reflexivity|constructor]. }
    destruct (parser_parse_line p buf) as [p1 st].
    destruct (negb (parser_state_eqb st HEADER)).
    { inversion H; subst. exists [], AtMalformed.
      split; [reflexivity|constructor]. }
    destruct (parser_retrieve_next_header p1) as [p2 [h|]]; [|discriminate].
    destruct (managed h) eqn:Em; simpl in H.
    + apply IH in H as (hs & s & Hc & Hf). rewrite Hc.
      exists (h :: hs), s. split; [reflexivity|].
      unfold passed in *. simpl. now rewrite Em.
    + destruct (sprintf MAXLINE (header_text h)) as [hdr|] eqn:Eh;
        [|discriminate].
      destruct (strcat MAXBUF request hdr) as [request1|]; [|discriminate].
      apply sprintf_some in Eh as [_ Hfit].
      apply IH in H as (hs & s & Hc & Hf). rewrite Hc.
      exists (h :: hs), s. split; [reflexivity|].
      unfold passed in *. simpl. rewrite Em. simpl. now constructor.
Qed.

Variables (buf rp : string) (p : parser_t) (host path port : string).
Hypothesis Hread : rio_readlineb (client_in w) MAXLINE = Some (buf, rp).
Hypothesis Hline : parser_parse_line parser_new buf = (p, REQUEST).
Hypothesis Hmethod : parser_retrieve p METHOD = Some "GET".
Hypothesis Hhost : parser_retrieve p HOST = Some host.
Hypothesis Hpath : parser_retrieve p PATH = Some path.
Hypothesis Hport :
  port = match parser_retrieve p PORT with
         | Some q => q
         | None => default_port
         end.

Lemma doit_lines_fit :
  snd (doit w client_fd) <> Fault ->
  String.length (cat ["Host: "; host; ":"; port; CRLF]) < MAXLINE /\
  exists hs s rest,
    client_headers (S (String.length rp)) p rp = (hs, s, rest) /\
    Forall (fun h => String.length (header_text h) < MAXLINE) (passed hs).
Proof.
  intros Hnf. unfold doit in Hnf. rewrite Hread, Hline in Hnf.
  cbn [parser_state_eqb negb] in Hnf. rewrite Hmethod in Hnf.
  change ("GET" =? "GET") with true in Hnf. cbn [negb] in Hnf.
  rewrite Hhost, Hpath, <- Hport in Hnf.
  destruct (sprintf MAXBUF (cat ["GET"; " "; path; " "; default_version]))
    as [r0|]; [|now elim Hnf].
  destruct (sprintf MAXLINE (cat ["Host: "; host; ":"; port; CRLF]))
    as [hh|] eqn:E1; [|now elim Hnf].
  apply sprintf_some in E1 as [_ Hfit]. split; [exact Hfit|].
  destruct (strcat MAXBUF r0 hh) as [r1|]; [|now elim Hnf].
  destruct (strcat MAXBUF r1 header_user_agent) as [r2|]; [|now elim Hnf].
  destruct (strcat MAXBUF r2 header_conn) as [r3|]; [|now elim Hnf].
  destruct (strcat MAXBUF r3 header_proxy) as [r4|]; [|now elim Hnf].
  destruct (other_headers w (S (String.length rp)) client_fd p rp r4)
    as [t [[r5 rest]| |]] eqn:Eo; [|now elim Hnf|].
  - apply other_headers_lines_fit in Eo as (hs & s & Hc & Hf).
    now exists hs, s, rest.
  - exfalso.
    apply (other_headers_fed w (S (String.length rp)) client_fd p rp r4);
      [lia | now rewrite Eo].
Qed.

(** X11.  The handler checks no length when it builds the request: a GET
    request whose path, host and port together are within 155 bytes of the
    size of the request buffer makes [doit] write past the end of that
    buffer, whatever the headers are; the 155 bytes are the fixed text of the
    request line and of the four headers the proxy sets, and the blank
    line. *)
Theorem long_request_overruns :
  MAXBUF <= 155 + String.length path + String.length host + String.length port ->
  snd (doit w client_fd) = Fault.
Proof.
  intros Hlong.
  destruct (snd (doit w client_fd)) as [r| |] eqn:Ed; [exfalso|reflexivity|exfalso].
  - destruct (doit_get w client_fd buf rp p host path port
                Hread Hline Hmethod Hhost Hpath Hport)
      as (hs & _ & _ & _ & _ & _ & Hfit & _); [rewrite Ed; discriminate|].
    rewrite length_outbound in Hfit. lia.
  - destruct (doit_get w client_fd buf rp p host path port
                Hread Hline Hmethod Hhost Hpath Hport)
      as (hs & _ & _ & _ & _ & _ & Hfit & _); [rewrite Ed; discriminate|].
    rewrite length_outbound in Hfit. lia.
Qed.

Variables (hs : list header_t) (s : stop) (rest : string).
Hypothesis Hheaders : client_headers (S (String.length rp)) p rp = (hs, s, rest).

(** X10.  For a GET request that gets as far as the request is built, the
    run of [doit] stays within its buffers if and only if the parser hands
    out a header for every line it takes for one, the Host line and every
    header line passed on is shorter than [MAXLINE], and the whole outbound
    request is shorter than [MAXBUF]. *)
Theorem doit_defined_iff :
  snd (doit w client_fd) <> Fault <->
  s <> AtNull /\
  String.length (cat ["Host: "; host; ":"; port; CRLF]) < MAXLINE /\
  Forall (fun h => String.length (header_text h) < MAXLINE) (passed hs) /\
  String.length (outbound path host port hs) < MAXBUF.
Proof.
  split.
  - intros Hnf.
    destruct (doit_get w client_fd buf rp p host path port
                Hread Hline Hmethod Hhost Hpath Hport Hnf)
      as (hs1 & s1 & rest1 & _ & Hc & Hs & Hfit & _).
    rewrite Hheaders in Hc. inversion Hc; subst hs1 s1 rest1.
    destruct (doit_lines_fit Hnf) as (Hh & hs2 & s2 & rest2 & Hc2 & Hf).
    rewrite Hheaders in Hc2. inversion Hc2; subst hs2 s2 rest2.
    repeat split; auto.
    destruct Hs as [-> | [-> | ->]]; discriminate.
  - intros (Hs & Hh & Hf & Hfit).
    exact (doit_defined w client_fd buf rp p host path port hs s rest
             Hread Hline Hmethod Hhost Hpath Hport Hheaders Hs Hh Hf Hfit).
Qed.

End Bounds.

(** ** What is read of the client's stream *)

(** A line that was not ended by the end of the stream is read the same
    whatever follows it. *)
Lemma readline_upto_stable (k : nat) :
  forall (b x : string),
  readline_upto k (b ++ x) = (b, x) ->
  x <> "" ->
  forall y, readline_upto k (b ++ y) = (b, y).
Proof.
  induction k as [|k IH]; intros b x H Hx y.
  - destruct b as [|c b]; simpl in *.
    + now destruct y.
    + discriminate.
  - destruct b as [|c b]; simpl in *.
    + destruct x as [|c x]; [congruence|].
      destruct (Ascii.eqb c LF); [discriminate|].
      destruct (readline_upto k x); discriminate.
    + destruct (Ascii.eqb c LF).
      * injection H as Hb _. subst b. reflexivity.
      * destruct (readline_upto k (b ++ x)) as [l r] eqn:E.
        inversion H; subst l r.
        now rewrite (IH b x E Hx y).
Qed.

Lemma rio_readlineb_stable (maxlen : nat) (b x : string) :
  rio_readlineb (b ++ x) maxlen = Some (b, x) ->
  x <> "" ->
  forall y, rio_readlineb (b ++ y) maxlen = Some (b, y).
Proof.
  unfold rio_readlineb. intros H Hx y.
  destruct (readline_upto (maxlen - 1) (b ++ x)) as [l r] eqn:E.
  destruct l as [|c l]; [discriminate|]. inversion H; subst b r.
  now rewrite (readline_upto_stable _ _ _ E Hx y).
Qed.

Lemma rio_readlineb_blank (maxlen : nat) (x : string) :
  rio_readlineb (CRLF ++ x) maxlen = Some (CRLF, x) ->
  forall y, rio_readlineb (CRLF ++ y) maxlen = Some (CRLF, y).
Proof.
  intros H y. apply rio_readlineb_fits in H. simpl in H.
  unfold rio_readlineb. destruct maxlen as [|[|[|n]]]; try lia.
  reflexivity.
Qed.

Section Unread.

Context {limits : csapp_limits} {parser : http_parser}.

(** Where the loop stops at the blank line, it has read a part of the
    stream that it reads the same, with the same headers, before anything
    else. *)
Lemma client_headers_blank (fuel : nat) :
  forall (p : parser_t) (rp : string) (hs : list header_t) (rest : string),
  client_headers fuel p rp = (hs, AtBlank, rest) ->
  exists consumed,
    rp = consumed ++ rest /\
    consumed <> "" /\
    forall (y : string) (fuel' : nat),
      String.length (consumed ++ y) < fuel' ->
      client_headers fuel' p (consumed ++ y) = (hs, AtBlank, y).
Proof.
  induction fuel as [|fuel IH]; intros p rp hs rest H; [discriminate|].
  simpl in H.
  destruct (rio_readlineb rp MAXLINE) as [[buf rp1]|] eqn:Er; [|discriminate].
  destruct (rio_readlineb_split _ _ _ _ Er) as [Hsplit Hne].
  destruct (buf =? CRLF) eqn:Eb.
  - inversion H; subst hs rest. apply String.eqb_eq in Eb. subst buf.
    exists CRLF. repeat split; auto.
    intros y [|fuel'] Hlt; [lia|]. cbn [client_headers].
    rewrite Hsplit in Er. now rewrite (rio_readlineb_blank _ _ Er y).
  - destruct (parser_parse_line p buf) as [p1 st] eqn:Ep.
    destruct (negb (parser_state_eqb st HEADER)) eqn:Es; [discriminate|].
    destruct (parser_retrieve_next_header p1) as [p2 [h|]] eqn:En;
      [|discriminate].
    destruct (client_headers fuel p2 rp1) as [[hs' s'] rest'] eqn:Ec.
    inversion H; subst hs s' rest'.
    destruct (IH _ _ _ _ Ec) as (consumed & Hrp & Hcne & Hagain).
    exists (buf ++ consumed). repeat split.
    + now rewrite append_assoc, <- Hrp.
    + destruct buf; [congruence|discriminate].
    + intros y [|fuel'] Hlt; [lia|]. cbn [client_headers].
      rewrite append_assoc in Hlt |- *.
      assert (Er' : rio_readlineb (buf ++ consumed ++ y) MAXLINE =
                    Some (buf, consumed ++ y)).
      { apply rio_readlineb_stable with (x := rp1).
        - now rewrite <- Hsplit.
        - rewrite Hrp. destruct consumed; [congruence|discriminate]. }
      rewrite Er', Eb, Ep, Es, En.
      rewrite Hagain; [reflexivity|].
      rewrite length_append in Hlt.
      destruct buf; [congruence|]. simpl in Hlt. lia.
Qed.

Variable w : world.
Variable client_fd : Z.

Variables (buf rp : string) (p : parser_t) (host path port : string).
Hypothesis Hread : rio_readlineb (client_in w) MAXLINE = Some (buf, rp).
Hypothesis Hline : parser_parse_line parser_new buf = (p, REQUEST).
Hypothesis Hmethod : parser_retrieve p METHOD = Some "GET".
Hypothesis Hhost : parser_retrieve p HOST = Some host.
Hypothesis Hpath : parser_retrieve p PATH = Some path.
Hypothesis Hport :
  port = match parser_retrieve p PORT with
         | Some q => q
         | None => default_port
         end.
Variables (hs : list header_t) (rest : string).
Hypothesis Hheaders :
  client_headers (S (String.length rp)) p rp = (hs, AtBlank, rest).
Hypothesis Hdefined : snd (doit w client_fd) <> Fault.

(** X12.  What the client sends after the blank line that ends its headers
    is never read and changes nothing: the stream is what the handler has
    read followed by [rest], and with anything else in the place of [rest]
    the run of [doit] is the same, call for call. *)
Theorem bytes_after_blank_line_are_ignored :
  exists consumed,
    client_in w = consumed ++ rest /\
    forall rest',
      doit (mk_world (consumed ++ rest') (client_up w) (open_clientfd w)
              (origin_up w) (origin_out w)) client_fd =
      doit w client_fd.
Proof.
  destruct (rio_readlineb_split _ _ _ _ Hread) as [Hin Hbne].
  destruct (client_headers_blank _ _ _ _ _ Hheaders)
    as (consumed & Hrp & Hcne & Hagain).
  exists (buf ++ consumed). split.
  { now rewrite append_assoc, <- Hrp. }
  intros rest'.
  set (w' := mk_world ((buf ++ consumed) ++ rest') (client_up w)
               (open_clientfd w) (origin_up w) (origin_out w)).
  assert (Hread' : rio_readlineb (client_in w') MAXLINE =
                   Some (buf, consumed ++ rest')).
  { unfold w'. cbn [client_in]. rewrite append_assoc.
    apply rio_readlineb_stable with (x := rp).
    - now rewrite <- Hin.
    - rewrite Hrp. destruct consumed; [congruence|discriminate]. }
  assert (Hheaders' :
    client_headers (S (String.length (consumed ++ rest'))) p (consumed ++ rest') =
    (hs, AtBlank, rest')).
  { apply Hagain. lia. }
  destruct (doit_get w client_fd buf rp p host path port
              Hread Hline Hmethod Hhost Hpath Hport Hdefined)
    as (hs1 & s1 & rest1 & relayed & Hc & _ & Hfit & Hrel & Hdoit).
  rewrite Hheaders in Hc. inversion Hc; subst hs1 s1 rest1.
  destruct (doit_lines_fit w client_fd buf rp p host path port
              Hread Hline Hmethod Hhost Hpath Hport Hdefined)
    as (Hh & hs2 & s2 & rest2 & Hc2 & Hf).
  rewrite Hheaders in Hc2. inversion Hc2; subst hs2 s2 rest2.
  assert (Hdefined' : snd (doit w' client_fd) <> Fault).
  { apply (@doit_defined limits parser w' client_fd buf
             (consumed ++ rest') p host path port hs AtBlank rest'
             Hread' Hline Hmethod Hhost Hpath Hport Hheaders');
      try assumption. discriminate. }
  destruct (doit_get w' client_fd buf (consumed ++ rest') p host path port
              Hread' Hline Hmethod Hhost Hpath Hport Hdefined')
    as (hs1 & s1 & rest1 & relayed' & Hc' & _ & _ & Hrel' & Hdoit').
  rewrite Hheaders' in Hc'. inversion Hc'; subst hs1 s1 rest1.
  unfold w' in Hrel', Hdoit'. cbn [origin_out open_clientfd origin_up] in *.
  rewrite Hrel in Hrel'. inversion Hrel'; subst relayed'.
  fold w' in Hdoit'. rewrite Hdoit', Hdoit. cbn [stop_trace].
  unfold clienterror, w'. cbn [client_up]. reflexivity.
Qed.

End Unread.

(** * The origin server *)

(** ** Searching a string *)

Lemma prefix_nil (x : string) : String.prefix "" x = true.
Proof. now destruct x. Qed.

Lemma prefix_app (n x : string) : String.prefix n (n ++ x) = true.
Proof.
  induction n as [|a n IH]; simpl; [apply prefix_nil|].
  destruct (ascii_dec a a); [exact IH|congruence].
Qed.

Lemma prefix_app_l (n a b : string) :
  String.prefix n a = true -> String.prefix n (a ++ b) = true.
Proof.
  revert a; induction n as [|c n IH]; intros a H; [apply prefix_nil|].
  destruct a as [|d a]; simpl in *; [discriminate|].
  destruct (ascii_dec c d); [now apply IH|discriminate].
Qed.

Lemma strstr_app_l (a b n : string) :
  Tiny.strstr a n = true -> Tiny.strstr (a ++ b) n = true.
Proof.
  induction a as [|c a IH]; intros H.
  - simpl in H. rewrite orb_false_r in H. destruct n; [|discriminate].
    destruct b; reflexivity.
  - cbn [Tiny.strstr append] in *. apply orb_true_iff in H as [H|H].
    + change (String c (a ++ b)) with (String c a ++ b).
      now rewrite (prefix_app_l _ _ b H).
    + rewrite (IH H). apply orb_true_r.
Qed.

Lemma strstr_app_r (a b n : string) :
  Tiny.strstr b n = true -> Tiny.strstr (a ++ b) n = true.
Proof.
  intros H. induction a as [|c a IH]; [exact H|].
  cbn [Tiny.strstr append]. rewrite IH. apply orb_true_r.
Qed.

(** A text that ends in a slash, followed by [home.html], holds [/../] only
    where the text does. *)
Lemma prefix_updir_home (x : string) :
  String.prefix "/../" (x ++ "home.html") = String.prefix "/../" x.
Proof.
  destruct x as [|a [|b [|c [|d x]]]]; simpl;
    repeat match goal with
           | |- context [ascii_dec ?u ?v] => destruct (ascii_dec u v)
           end;
    rewrite ?prefix_nil; try reflexivity; try discriminate.
Qed.

Lemma strstr_updir_home (x : string) :
  Tiny.strstr (x ++ "home.html") "/../" = Tiny.strstr x "/../".
Proof.
  induction x as [|c x IH]; [reflexivity|].
  change (String c x ++ "home.html") with (String c (x ++ "home.html")).
  cbn [Tiny.strstr].
  change (String c (x ++ "home.html")) with (String c x ++ "home.html").
  now rewrite prefix_updir_home, IH.
Qed.

Lemma strchr_split (s : string) (c : ascii) (l r : string) :
  Tiny.strchr s c = Some (l, r) ->
  s = l ++ String c r /\ Tiny.strchr l c = None.
Proof.
  revert l r; induction s as [|a s IH]; intros l r H; [discriminate|].
  simpl in H. destruct (Ascii.eqb a c) eqn:E.
  - apply Ascii.eqb_eq in E. inversion H; subst. now split.
  - destruct (Tiny.strchr s c) as [[l' r']|]; [|discriminate].
    inversion H; subst. destruct (IH _ _ eq_refl) as [-> Hn].
    split; [reflexivity|]. simpl. now rewrite E, Hn.
Qed.

Lemma strchr_prefix (n s : string) (c : ascii) (l r : string) :
  String.prefix n s = true ->
  Tiny.strchr n c = None ->
  Tiny.strchr s c = Some (l, r) ->
  String.prefix n l = true.
Proof.
  revert s l r; induction n as [|a n IH]; intros s l r Hp Hn Hs;
    [apply prefix_nil|].
  destruct s as [|b s]; simpl in Hp; [discriminate|].
  destruct (ascii_dec a b) as [<-|]; [|discriminate].
  simpl in Hn, Hs. destruct (Ascii.eqb a c); [discriminate|].
  destruct (Tiny.strchr n c) as [[? ?]|] eqn:En; [discriminate|].
  destruct (Tiny.strchr s c) as [[l' r']|] eqn:Es; [|discriminate].
  inversion Hs; subst. simpl.
  destruct (ascii_dec a a); [|congruence]. now apply (IH s l' r).
Qed.

(** ** [parse_path] and [get_filetype] *)

Section TinyPaths.

Context {limits : csapp_limits}.

Lemma updir_not_at_dot (x : string) :
  Tiny.strstr (String "." x) "/../" = Tiny.strstr x "/../".
Proof. reflexivity. Qed.

(** X13.  A path that [parse_path] takes for static content gives the file
    name [./<path>], with [home.html] added when the path is empty or ends in
    a slash, and no CGI arguments; the file name is shorter than [MAXLINE]
    and the text [/../] occurs nowhere in it. *)
Theorem parse_path_static (path filename cgiargs : string) :
  Tiny.parse_path path = (Tiny.PARSE_STATIC, filename, cgiargs) ->
  filename =
    "./" ++ path ++
    (if Tiny.ends_with ("/" ++ path) "/" then "home.html" else "") /\
  cgiargs = "" /\
  Tiny.strstr filename "/../" = false /\
  String.length filename < MAXLINE /\
  String.prefix "/cgi-bin/" ("/" ++ path) = false.
Proof.
  unfold Tiny.parse_path.
  destruct (MAXLINE <=? String.length ("/" ++ path))%nat; [discriminate|].
  destruct (String.prefix "/cgi-bin/" ("/" ++ path)) eqn:Ecgi.
  { destruct (Tiny.strchr ("/" ++ path) "?") as [[before args]|].
    - destruct (MAXLINE <=? String.length args)%nat; [discriminate|].
      destruct (MAXLINE <=? String.length ("." ++ before))%nat; discriminate.
    - destruct (MAXLINE <=? String.length ("." ++ "/" ++ path))%nat;
        discriminate. }
  destruct (Tiny.strstr ("/" ++ path) "/../") eqn:Eup; [discriminate|].
  set (suffix := if Tiny.ends_with ("/" ++ path) "/" then "home.html" else "").
  destruct (Nat.leb_spec MAXLINE (String.length ("." ++ ("/" ++ path) ++ suffix)))
    as [|Hfit]; [discriminate|].
  intros H. inversion H; subst filename cgiargs.
  assert (Hclean : Tiny.strstr (("/" ++ path) ++ suffix) "/../" = false).
  { unfold suffix. destruct (Tiny.ends_with ("/" ++ path) "/").
    - now rewrite strstr_updir_home.
    - now rewrite append_nil_r. }
  repeat split; auto.
Qed.

Lemma strstr_after_slash (path needle : string) :
  Tiny.strstr ("/" ++ path) (String "/" needle) =
  String.prefix needle path || Tiny.strstr path (String "/" needle).
Proof.
  change ("/" ++ path) with (String "/" path).
  cbn [Tiny.strstr String.prefix].
  now destruct (ascii_dec "/" "/") as [_|Hne]; [|destruct Hne].
Qed.

Lemma prefix_after_slash (path lead : string) :
  String.prefix (String "/" lead) ("/" ++ path) = String.prefix lead path.
Proof.
  change ("/" ++ path) with (String "/" path). cbn [String.prefix].
  now destruct (ascii_dec "/" "/") as [_|Hne]; [|destruct Hne].
Qed.

(** X14.  The check against climbing out of the served directory is made on
    the path with the slash [parse_path] puts before it, and looks for the
    text [/../] only: a path that is not under [cgi-bin] and fits the buffer
    is refused exactly when it begins with [../] or holds [/../], and is
    taken for static content otherwise.  Two dots that no slash follows are
    let through. *)
Theorem parse_path_traversal_check (path : string) :
  String.prefix "cgi-bin/" path = false ->
  String.length path + 2 +
    (if Tiny.ends_with ("/" ++ path) "/" then 9 else 0) < MAXLINE ->
  Tiny.parse_path path =
    if String.prefix "../" path || Tiny.strstr path "/../"
    then (Tiny.PARSE_ERROR, "", "")
    else
      (Tiny.PARSE_STATIC,
       "./" ++ path ++
       (if Tiny.ends_with ("/" ++ path) "/" then "home.html" else ""),
       "").
Proof.
  intros Hcgi Hfit. unfold Tiny.parse_path.
  assert (Hl : String.length ("/" ++ path) = S (String.length path))
    by reflexivity.
  destruct (Nat.leb_spec MAXLINE (String.length ("/" ++ path))); [lia|].
  rewrite (prefix_after_slash path "cgi-bin/"), Hcgi.
  rewrite (strstr_after_slash path "../").
  destruct (String.prefix "../" path || Tiny.strstr path "/../");
    [reflexivity|].
  set (suffix := if Tiny.ends_with ("/" ++ path) "/" then "home.html" else "").
  assert (Hs : String.length suffix =
               if Tiny.ends_with ("/" ++ path) "/" then 9 else 0).
  { unfold suffix. now destruct (Tiny.ends_with ("/" ++ path) "/"). }
  destruct (Nat.leb_spec MAXLINE (String.length ("." ++ ("/" ++ path) ++ suffix)))
    as [Hbad|_]; [|reflexivity].
  change ("." ++ ("/" ++ path) ++ suffix)
    with (String "." (String "/" (path ++ suffix))) in Hbad.
  simpl in Hbad. rewrite length_append, Hs in Hbad. lia.
Qed.

(** X15.  A path that [parse_path] takes for dynamic content is cut at its
    first question mark: the file name is [./] and the part before it, under
    [./cgi-bin/] and without a question mark, the CGI arguments are the part
    after it (none when there is no question mark), both shorter than
    [MAXLINE]; put together again they are the path. *)
Theorem parse_path_dynamic (path filename cgiargs : string) :
  Tiny.parse_path path = (Tiny.PARSE_DYNAMIC, filename, cgiargs) ->
  String.prefix "./cgi-bin/" filename = true /\
  Tiny.strchr filename "?" = None /\
  String.length filename < MAXLINE /\
  String.length cgiargs < MAXLINE /\
  ((Tiny.strchr path "?" = None /\ filename = "./" ++ path /\ cgiargs = "") \/
   (Tiny.strchr path "?" <> None /\
    "./" ++ path = filename ++ "?" ++ cgiargs)).
Proof.
  unfold Tiny.parse_path.
  destruct (Nat.leb_spec MAXLINE (String.length ("/" ++ path))) as [|Hp];
    [discriminate|].
  destruct (String.prefix "/cgi-bin/" ("/" ++ path)) eqn:Ecgi.
  2:{ destruct (Tiny.strstr ("/" ++ path) "/../"); [discriminate|].
      destruct (MAXLINE <=? _)%nat; discriminate. }
  destruct (Tiny.strchr ("/" ++ path) "?") as [[before args]|] eqn:Eq.
  - destruct (Nat.leb_spec MAXLINE (String.length args)) as [|Ha];
      [discriminate|].
    destruct (Nat.leb_spec MAXLINE (String.length ("." ++ before))) as [|Hf];
      [discriminate|].
    intros H. inversion H; subst filename cgiargs.
    destruct (strchr_split _ _ _ _ Eq) as [Hsplit Hnone].
    assert (Hpre : String.prefix "/cgi-bin/" before = true).
    { now apply (strchr_prefix "/cgi-bin/" ("/" ++ path) "?" before args). }
    repeat split; auto.
    + simpl. now rewrite Hnone.
    + right. split.
      * simpl in Eq. destruct (Tiny.strchr path "?"); [discriminate|].
        discriminate.
      * change ("./" ++ path) with ("." ++ "/" ++ path). rewrite Hsplit.
        reflexivity.
  - destruct (Nat.leb_spec MAXLINE (String.length ("." ++ "/" ++ path)))
      as [|Hf]; [discriminate|].
    intros H. inversion H; subst filename cgiargs.
    assert (Hnone : Tiny.strchr path "?" = None).
    { simpl in Eq. destruct (Tiny.strchr path "?") as [[? ?]|];
        [discriminate|reflexivity]. }
    repeat split; auto.
    + simpl. now rewrite Hnone.
    + apply Nat.lt_trans with (m := String.length ("." ++ "/" ++ path));
        [simpl; lia|exact Hf].
Qed.

(** X16.  No check against climbing is made on a path under [cgi-bin]: every
    program path without a question mark that fits the buffer is taken for
    dynamic content as it is, and so is one that begins with [../]. *)
Theorem cgi_paths_are_not_checked (prog : string) :
  Tiny.strchr prog "?" = None ->
  String.length prog + 10 < MAXLINE ->
  Tiny.parse_path ("cgi-bin/" ++ prog) =
    (Tiny.PARSE_DYNAMIC, "./cgi-bin/" ++ prog, "") /\
  (forall target,
     prog = "../" ++ target ->
     Tiny.strstr (snd (fst (Tiny.parse_path ("cgi-bin/" ++ prog)))) "/../" = true).
Proof.
  intros Hq Hfit.
  assert (Heq : Tiny.parse_path ("cgi-bin/" ++ prog) =
                (Tiny.PARSE_DYNAMIC, "./cgi-bin/" ++ prog, "")).
  { unfold Tiny.parse_path.
    destruct (Nat.leb_spec MAXLINE (String.length ("/" ++ "cgi-bin/" ++ prog)))
      as [Hbad|_]; [simpl in Hbad; lia|].
    change (String.prefix "/cgi-bin/" ("/" ++ "cgi-bin/" ++ prog))
      with (String.prefix "/cgi-bin/" ("/cgi-bin/" ++ prog)).
    rewrite prefix_app.
    assert (Hn : Tiny.strchr ("/" ++ "cgi-bin/" ++ prog) "?" = None).
    { simpl. now rewrite Hq. }
    rewrite Hn.
    destruct (Nat.leb_spec MAXLINE
                (String.length ("." ++ "/" ++ "cgi-bin/" ++ prog)))
      as [Hbad|_]; [simpl in Hbad; lia|].
    reflexivity. }
  split; [exact Heq|].
  intros target ->. rewrite Heq. cbn [fst snd].
  change ("./cgi-bin/" ++ "../" ++ target)
    with ("./cgi-bin" ++ "/../" ++ target).
  apply strstr_app_r. apply strstr_app_l. reflexivity.
Qed.

(** X17.  [get_filetype] looks for the extension anywhere in the name, not
    at its end, and [.html] comes first: a name that holds [.html] is
    [text/html] whatever surrounds it; the type is [text/plain] exactly when
    the name holds none of [.html], [.gif], [.png] and [.jpg]. *)
Theorem get_filetype_by_substring (filename : string) :
  (forall a b, Tiny.get_filetype (a ++ ".html" ++ b) = "text/html") /\
  (Tiny.get_filetype filename = "text/plain" <->
   Tiny.strstr filename ".html" = false /\
   Tiny.strstr filename ".gif" = false /\
   Tiny.strstr filename ".png" = false /\
   Tiny.strstr filename ".jpg" = false).
Proof.
  split.
  - intros a b. unfold Tiny.get_filetype.
    assert (H : Tiny.strstr (a ++ ".html" ++ b) ".html" = true).
    { apply strstr_app_r. apply strstr_app_l. reflexivity. }
    now rewrite H.
  - unfold Tiny.get_filetype.
    destruct (Tiny.strstr filename ".html");
      [split; [discriminate|intros (? & _); discriminate]|].
    destruct (Tiny.strstr filename ".gif");
      [split; [discriminate|intros (_ & ? & _); discriminate]|].
    destruct (Tiny.strstr filename ".png");
      [split; [discriminate|intros (_ & _ & ? & _); discriminate]|].
    destruct (Tiny.strstr filename ".jpg");
      [split; [discriminate|intros (_ & _ & _ & ?); discriminate]|].
    split; auto.
Qed.

Lemma get_filetype_html (filename : string) :
  Tiny.strstr filename ".html" = true ->
  Tiny.get_filetype filename = "text/html".
Proof. intros H. unfold Tiny.get_filetype. now rewrite H. Qed.

(** X18.  A request for a directory (a path that is empty or ends in a
    slash) that [parse_path] accepts is answered with the file [home.html] of
    that directory, typed [text/html]. *)
Theorem directory_is_served_as_home_page (path filename cgiargs : string) :
  Tiny.parse_path path = (Tiny.PARSE_STATIC, filename, cgiargs) ->
  Tiny.ends_with ("/" ++ path) "/" = true ->
  filename = "./" ++ path ++ "home.html" /\
  Tiny.get_filetype filename = "text/html".
Proof.
  intros H Hdir.
  unfold Tiny.parse_path in H.
  destruct (MAXLINE <=? String.length ("/" ++ path))%nat; [discriminate|].
  destruct (String.prefix "/cgi-bin/" ("/" ++ path)).
  { destruct (Tiny.strchr ("/" ++ path) "?") as [[before args]|].
    - destruct (MAXLINE <=? String.length args)%nat; [discriminate|].
      destruct (MAXLINE <=? String.length ("." ++ before))%nat; discriminate.
    - destruct (MAXLINE <=? String.length ("." ++ "/" ++ path))%nat;
        discriminate. }
  destruct (Tiny.strstr ("/" ++ path) "/../"); [discriminate|].
  rewrite Hdir in H.
  destruct (MAXLINE <=? _)%nat; [discriminate|].
  inversion H; subst filename cgiargs. split; [reflexivity|].
  assert (Hh : Tiny.strstr (("./" ++ path) ++ "home.html") ".html" = true).
  { apply strstr_app_r. reflexivity. }
  apply get_filetype_html. exact Hh.
Qed.

End TinyPaths.

(** ** [serve] *)

Section TinyServe.

Context {limits : csapp_limits} {parser : http_parser}.
Variable w : Tiny.site.
Variable connfd : Z.

Lemma tiny_files_app (t1 t2 : list Tiny.event) :
  Tiny.files (t1 ++ t2)%list = (Tiny.files t1 ++ Tiny.files t2)%list.
Proof.
  induction t1 as [|[] t1 IH]; simpl; auto; now rewrite IH.
Qed.

Lemma tiny_opened_app (t1 t2 : list Tiny.event) :
  Tiny.opened (t1 ++ t2)%list = (Tiny.opened t1 ++ Tiny.opened t2)%list.
Proof.
  induction t1 as [|[] t1 IH]; simpl; auto; now rewrite IH.
Qed.

Lemma tiny_closes_app (fd : Z) (t1 t2 : list Tiny.event) :
  Tiny.closes fd (t1 ++ t2)%list = Tiny.closes fd t1 + Tiny.closes fd t2.
Proof.
  induction t1 as [|[] t1 IH]; simpl; auto. rewrite IH. lia.
Qed.

Lemma tiny_clienterror_quiet (fd fd' : Z) (errnum shortmsg longmsg : string) :
  Tiny.files (Tiny.clienterror w fd errnum shortmsg longmsg) = [] /\
  Tiny.opened (Tiny.clienterror w fd errnum shortmsg longmsg) = [] /\
  Tiny.closes fd' (Tiny.clienterror w fd errnum shortmsg longmsg) = 0.
Proof.
  unfold Tiny.clienterror.
  destruct (MAXBUF <=? _)%nat; [now repeat split|].
  destruct (MAXLINE <=? _)%nat; [now repeat split|].
  destruct (negb (Tiny.client_up w)); now repeat split.
Qed.

(** The loop of [read_requesthdrs] reads and parses as the header loop of
    the proxy does, and answers by where that loop stops. *)
Lemma read_requesthdrs_spec (fuel : nat) :
  forall (p : parser_t) (rp : string),
  Tiny.read_requesthdrs w fuel connfd p rp =
  match client_headers fuel p rp with
  | (_, AtEof, _) => ([], Ok true)
  | (_, AtBlank, _) => ([], Ok false)
  | (_, AtMalformed, _) =>
      (Tiny.clienterror w connfd "400" "Bad Request"
         "Tiny could not parse request headers", Ok true)
  | (_, AtNull, _) => ([], Fault)
  | (_, AtBound, _) => ([], Starved)
  end.
Proof.
  induction fuel as [|fuel IH]; intros p rp; [reflexivity|].
  simpl.
  destruct (rio_readlineb rp MAXLINE) as [[buf rp1]|]; [|reflexivity].
  destruct (buf =? CRLF); [reflexivity|].
  destruct (parser_parse_line p buf) as [p1 st].
  destruct (negb (parser_state_eqb st HEADER)); [reflexivity|].
  destruct (parser_retrieve_next_header p1) as [p2 [h|]]; [|reflexivity].
  rewrite IH. now destruct (client_headers fuel p2 rp1) as [[hs s] rest].
Qed.

Lemma client_headers_fed (fuel : nat) :
  forall (p : parser_t) (rp : string),
  String.length rp < fuel ->
  snd (fst (client_headers fuel p rp)) <> AtBound.
Proof.
  induction fuel as [|fuel IH]; intros p rp Hlt; [lia|].
  simpl.
  destruct (rio_readlineb rp MAXLINE) as [[buf rp1]|] eqn:Er; [|discriminate].
  apply rio_readlineb_consumes in Er.
  destruct (buf =? CRLF); [discriminate|].
  destruct (parser_parse_line p buf) as [p1 st].
  destruct (negb (parser_state_eqb st HEADER)); [discriminate|].
  destruct (parser_retrieve_next_header p1) as [p2 [h|]]; [|discriminate].
  assert (H := IH p2 rp1 ltac:(lia)).
  now destruct (client_headers fuel p2 rp1) as [[hs s] rest].
Qed.

Lemma read_requesthdrs_quiet (fuel : nat) (p : parser_t) (rp : string) (fd' : Z) :
  Tiny.files (fst (Tiny.read_requesthdrs w fuel connfd p rp)) = [] /\
  Tiny.opened (fst (Tiny.read_requesthdrs w fuel connfd p rp)) = [] /\
  Tiny.closes fd' (fst (Tiny.read_requesthdrs w fuel connfd p rp)) = 0.
Proof.
  rewrite read_requesthdrs_spec.
  destruct (client_headers fuel p rp) as [[hs []] rest]; cbn [fst];
    try now repeat split.
  apply tiny_clienterror_quiet.
Qed.

Lemma serve_static_files (filename : string) (filesize : Z) :
  incl (Tiny.files (Tiny.serve_static w connfd filename filesize)) [filename] /\
  incl (Tiny.opened (Tiny.serve_static w connfd filename filesize)) [filename].
Proof.
  unfold Tiny.serve_static.
  destruct (MAXBUF <=? _)%nat; [split; apply incl_nil_l|].
  destruct (negb (Tiny.client_up w)); [split; apply incl_nil_l|].
  destruct (Tiny.open_file w filename <? 0)%Z; [split; apply incl_refl|].
  destruct (Tiny.mmap w _ _); split; apply incl_refl.
Qed.

Lemma serve_dynamic_quiet (filename cgiargs : string) :
  incl (Tiny.files (Tiny.serve_dynamic w connfd filename cgiargs)) [filename] /\
  Tiny.opened (Tiny.serve_dynamic w connfd filename cgiargs) = [] /\
  Tiny.closes connfd (Tiny.serve_dynamic w connfd filename cgiargs) = 0.
Proof.
  unfold Tiny.serve_dynamic.
  destruct (MAXLINE <=? _)%nat; [repeat split; apply incl_nil_l|].
  destruct (negb (Tiny.client_up w)); [repeat split; apply incl_nil_l|].
  destruct (negb (Tiny.fork_ok w)); repeat split;
    [apply incl_nil_l|apply incl_refl].
Qed.

Lemma serve_static_closes (filename : string) (filesize : Z) :
  Tiny.open_file w filename <> connfd ->
  Tiny.closes connfd (Tiny.serve_static w connfd filename filesize) = 0.
Proof.
  intros Hne. apply Z.eqb_neq in Hne. unfold Tiny.serve_static.
  destruct (MAXBUF <=? _)%nat; [reflexivity|].
  destruct (negb (Tiny.client_up w)); [reflexivity|].
  destruct (Tiny.open_file w filename <? 0)%Z; [reflexivity|].
  destruct (Tiny.mmap w _ _); simpl; now rewrite Hne.
Qed.

Lemma parse_path_shape (path filename cgiargs : string) (r : Tiny.parse_result) :
  Tiny.parse_path path = (r, filename, cgiargs) ->
  r <> Tiny.PARSE_ERROR ->
  String.prefix "./" filename = true /\
  String.length filename < MAXLINE /\
  (r = Tiny.PARSE_STATIC -> Tiny.strstr filename "/../" = false).
Proof.
  unfold Tiny.parse_path. intros H Hr.
  destruct (MAXLINE <=? String.length ("/" ++ path))%nat;
    [inversion H; congruence|].
  destruct (String.prefix "/cgi-bin/" ("/" ++ path)) eqn:Ecgi.
  - destruct (Tiny.strchr ("/" ++ path) "?") as [[before args]|] eqn:Eq.
    + destruct (MAXLINE <=? String.length args)%nat;
        [inversion H; congruence|].
      destruct (Nat.leb_spec MAXLINE (String.length ("." ++ before)));
        [inversion H; congruence|].
      assert (Hp : String.prefix "/cgi-bin/" before = true)
        by now apply (strchr_prefix "/cgi-bin/" ("/" ++ path) "?" before args).
      inversion H; subst. repeat split; auto; [|intros ?; discriminate].
      destruct before as [|c before]; [discriminate|].
      cbn [String.prefix] in Hp |- *.
      destruct (ascii_dec "." "."); [|congruence].
      destruct (ascii_dec "/" c); [|discriminate Hp].
      apply prefix_nil.
    + destruct (Nat.leb_spec MAXLINE (String.length ("." ++ "/" ++ path)));
        [inversion H; congruence|].
      inversion H; subst. repeat split; auto; [apply prefix_nil|intros ?; discriminate].
  - destruct (Tiny.strstr ("/" ++ path) "/../") eqn:Eup;
      [inversion H; congruence|].
    set (suffix := if Tiny.ends_with ("/" ++ path) "/" then "home.html" else "")
      in *.
    destruct (Nat.leb_spec MAXLINE
                (String.length ("." ++ ("/" ++ path) ++ suffix)));
      [inversion H; congruence|].
    inversion H; subst. repeat split; auto; [apply prefix_nil|].
    intros _.
    assert (Hclean : Tiny.strstr (("/" ++ path) ++ suffix) "/../" = false).
    { unfold suffix. destruct (Tiny.ends_with ("/" ++ path) "/").
      - now rewrite strstr_updir_home.
      - now rewrite append_nil_r. }
    exact Hclean.
Qed.

(** Every run of [serve]: either no file is touched, or the file name
    [parse_path] gave is looked up with [stat], and then an error page is
    sent, or the file is served after the checks on its mode. *)
Lemma serve_cases :
  (Tiny.files (fst (Tiny.serve w connfd)) = [] /\
   Tiny.opened (fst (Tiny.serve w connfd)) = [] /\
   Tiny.closes connfd (fst (Tiny.serve w connfd)) = 0) \/
  (exists path result filename cgiargs t t',
     Tiny.parse_path path = (result, filename, cgiargs) /\
     result <> Tiny.PARSE_ERROR /\
     Tiny.serve w connfd = ((t ++ Tiny.Stat filename :: t')%list, Ok tt) /\
     Tiny.files t = [] /\ Tiny.opened t = [] /\ Tiny.closes connfd t = 0 /\
     ((Tiny.files t' = [] /\ Tiny.opened t' = [] /\ Tiny.closes connfd t' = 0) \/
      (result = Tiny.PARSE_STATIC /\
       exists sbuf,
         Tiny.stat w filename = Some sbuf /\
         Tiny.st_isreg sbuf = true /\ Tiny.st_irusr sbuf = true /\
         t' = Tiny.serve_static w connfd filename
                (Tiny.int_of_off_t (Tiny.st_size sbuf))) \/
      (result = Tiny.PARSE_DYNAMIC /\
       exists sbuf,
         Tiny.stat w filename = Some sbuf /\
         Tiny.st_isreg sbuf = true /\ Tiny.st_ixusr sbuf = true /\
         t' = Tiny.serve_dynamic w connfd filename cgiargs))).
Proof.
  unfold Tiny.serve.
  destruct (rio_readlineb (Tiny.client_in w) MAXLINE) as [[buf rio]|];
    [|left; now repeat split].
  destruct (parser_parse_line parser_new buf) as [p st].
  destruct (negb (parser_state_eqb st REQUEST));
    [left; apply tiny_clienterror_quiet|].
  destruct (parser_retrieve p METHOD) as [method|]; [|left; now repeat split].
  destruct (negb (method =? "GET")); [left; apply tiny_clienterror_quiet|].
  assert (Hq := read_requesthdrs_quiet (S (String.length rio)) p rio connfd).
  destruct (Tiny.read_requesthdrs w (S (String.length rio)) connfd p rio)
    as [t [[|]| |]]; cbn [fst] in Hq; destruct Hq as (Hq1 & Hq2 & Hq3);
    try (left; now repeat split).
  destruct (parser_retrieve p PATH) as [path|]; [|left; now repeat split].
  destruct (Tiny.parse_path path) as [[result filename] cgiargs] eqn:Epath.
  destruct result; cbn [Tiny.parse_result_eqb].
  - left. cbn [fst].
    rewrite tiny_files_app, tiny_opened_app, tiny_closes_app, Hq1, Hq2, Hq3.
    apply tiny_clienterror_quiet.
  - right. exists path, Tiny.PARSE_STATIC, filename, cgiargs, t.
    destruct (Tiny.stat w filename) as [sbuf|] eqn:Es.
    + destruct (Tiny.st_isreg sbuf) eqn:Ereg; cbn [negb orb].
      * destruct (Tiny.st_irusr sbuf) eqn:Er; cbn [negb].
        -- eexists. repeat split; try reflexivity; try discriminate; auto.
           right; left. split; [reflexivity|]. now exists sbuf.
        -- eexists. repeat split; try reflexivity; try discriminate; auto.
           left. apply tiny_clienterror_quiet.
      * eexists. repeat split; try reflexivity; try discriminate; auto.
        left. apply tiny_clienterror_quiet.
    + eexists. repeat split; try reflexivity; try discriminate; auto.
      left. apply tiny_clienterror_quiet.
  - right. exists path, Tiny.PARSE_DYNAMIC, filename, cgiargs, t.
    destruct (Tiny.stat w filename) as [sbuf|] eqn:Es.
    + destruct (Tiny.st_isreg sbuf) eqn:Ereg; cbn [negb orb].
      * destruct (Tiny.st_ixusr sbuf) eqn:Er; cbn [negb].
        -- eexists. repeat split; try reflexivity; try discriminate; auto.
           right; right. split; [reflexivity|]. now exists sbuf.
        -- eexists. repeat split; try reflexivity; try discriminate; auto.
           left. apply tiny_clienterror_quiet.
      * eexists. repeat split; try reflexivity; try discriminate; auto.
        left. apply tiny_clienterror_quiet.
    + eexists. repeat split; try reflexivity; try discriminate; auto.
      left. apply tiny_clienterror_quiet.
Qed.

Lemma serve_fed : snd (Tiny.serve w connfd) <> Starved.
Proof.
  unfold Tiny.serve.
  destruct (rio_readlineb (Tiny.client_in w) MAXLINE) as [[buf rio]|];
    [|discriminate].
  destruct (parser_parse_line parser_new buf) as [p st].
  destruct (negb (parser_state_eqb st REQUEST)); [discriminate|].
  destruct (parser_retrieve p METHOD) as [method|]; [|discriminate].
  destruct (negb (method =? "GET")); [discriminate|].
  rewrite read_requesthdrs_spec.
  assert (Hfed := client_headers_fed (S (String.length rio)) p rio
                    (Nat.lt_succ_diag_r _)).
  destruct (client_headers (S (String.length rio)) p rio) as [[hs []] rest];
    cbn [fst snd] in *; try discriminate; try congruence.
  destruct (parser_retrieve p PATH) as [path|]; [|discriminate].
  destruct (Tiny.parse_path path) as [[result filename] cgiargs].
  destruct (Tiny.parse_result_eqb result Tiny.PARSE_ERROR); [discriminate|].
  destruct (Tiny.stat w filename) as [sbuf|]; [|discriminate].
  destruct (Tiny.parse_result_eqb result Tiny.PARSE_STATIC).
  - destruct (negb (Tiny.st_isreg sbuf) || negb (Tiny.st_irusr sbuf));
      discriminate.
  - destruct (negb (Tiny.st_isreg sbuf) || negb (Tiny.st_ixusr sbuf));
      discriminate.
Qed.

(** X19.  Every file name that [serve] passes to [stat] or [open] or runs as
    a CGI program begins with [./] and is shorter than [MAXLINE]. *)
Theorem serve_file_names (f : string) :
  In f (Tiny.files (fst (Tiny.serve w connfd))) ->
  String.prefix "./" f = true /\ String.length f < MAXLINE.
Proof.
  destruct serve_cases
    as [(Hf & _)|(path & result & filename & cgiargs & t & t' & Hp & Hr & Hs &
                  Hf & _ & _ & Ht')].
  - rewrite Hf. intros [].
  - rewrite Hs. cbn [fst]. rewrite tiny_files_app, Hf. cbn [Tiny.files app].
    destruct (parse_path_shape _ _ _ _ Hp Hr) as (Hpre & Hlen & _).
    assert (Hin : forall g, In g (Tiny.files t') -> g = filename).
    { destruct Ht' as [(Hq & _)|[(_ & sbuf & _ & _ & _ & ->)|
                                 (_ & sbuf & _ & _ & _ & ->)]].
      - rewrite Hq. intros g [].
      - intros g Hg.
        apply (proj1 (serve_static_files filename _)) in Hg.
        destruct Hg as [<-|[]]; reflexivity.
      - intros g Hg.
        apply (proj1 (serve_dynamic_quiet filename cgiargs)) in Hg.
        destruct Hg as [<-|[]]; reflexivity. }
    intros [<-|Hg]; [now split|]. apply Hin in Hg. subst f. now split.
Qed.

(** X20.  [serve] opens a file only after [stat] has found it a regular file
    that its owner may read, and only under a name in which the text [/../]
    does not occur. *)
Theorem serve_opens_only_checked_files (f : string) :
  In f (Tiny.opened (fst (Tiny.serve w connfd))) ->
  Tiny.strstr f "/../" = false /\
  exists sbuf,
    Tiny.stat w f = Some sbuf /\
    Tiny.st_isreg sbuf = true /\ Tiny.st_irusr sbuf = true.
Proof.
  destruct serve_cases
    as [(_ & Ho & _)|(path & result & filename & cgiargs & t & t' & Hp & Hr &
                      Hs & _ & Ho & _ & Ht')].
  - rewrite Ho. intros [].
  - rewrite Hs. cbn [fst]. rewrite tiny_opened_app, Ho. cbn [Tiny.opened app].
    destruct Ht' as [(_ & Hq & _)|[(-> & sbuf & Hst & Hreg & Hrd & ->)|
                                   (_ & sbuf & _ & _ & _ & ->)]].
    + rewrite Hq. intros [].
    + intros Hin.
      apply (proj2 (serve_static_files filename _)) in Hin.
      destruct Hin as [<-|[]].
      destruct (parse_path_shape _ _ _ _ Hp Hr) as (_ & _ & Hclean).
      split; [now apply Hclean|]. now exists sbuf.
    + rewrite (proj1 (proj2 (serve_dynamic_quiet filename cgiargs))).
      intros [].
Qed.

Lemma parse_path_dynamic_prefix (path filename cgiargs : string) :
  Tiny.parse_path path = (Tiny.PARSE_DYNAMIC, filename, cgiargs) ->
  String.prefix "./cgi-bin/" filename = true.
Proof.
  unfold Tiny.parse_path.
  destruct (MAXLINE <=? String.length ("/" ++ path))%nat; [discriminate|].
  destruct (String.prefix "/cgi-bin/" ("/" ++ path)) eqn:Ecgi.
  2:{ destruct (Tiny.strstr ("/" ++ path) "/../"); [discriminate|].
      destruct (MAXLINE <=? _)%nat; discriminate. }
  destruct (Tiny.strchr ("/" ++ path) "?") as [[before args]|] eqn:Eq.
  - destruct (MAXLINE <=? String.length args)%nat; [discriminate|].
    destruct (MAXLINE <=? String.length ("." ++ before))%nat; [discriminate|].
    assert (Hp : String.prefix "/cgi-bin/" before = true)
      by now apply (strchr_prefix "/cgi-bin/" ("/" ++ path) "?" before args).
    intros H. inversion H; subst. exact Hp.
  - destruct (MAXLINE <=? String.length ("." ++ "/" ++ path))%nat;
      [discriminate|].
    intros H. inversion H; subst. exact Ecgi.
Qed.

Lemma tiny_clienterror_writes (fd : Z) (errnum shortmsg longmsg : string)
    (e : Tiny.event) :
  In e (Tiny.clienterror w fd errnum shortmsg longmsg) ->
  exists data, e = Tiny.Write fd data.
Proof.
  unfold Tiny.clienterror.
  destruct (MAXBUF <=? _)%nat; [intros []|].
  destruct (MAXLINE <=? _)%nat; [intros []|].
  destruct (negb (Tiny.client_up w)); simpl; intros H;
    repeat destruct H as [<-|H]; try contradiction; eexists; reflexivity.
Qed.

(** X24.  [serve] runs a CGI program only on the connection it serves, only
    under a name that begins with [./cgi-bin/], and only after [stat] has
    found it a regular file that its owner may execute. *)
Theorem serve_runs_only_checked_programs
    (fd : Z) (f cgiargs : string) :
  In (Tiny.Cgi fd f cgiargs) (fst (Tiny.serve w connfd)) ->
  fd = connfd /\
  String.prefix "./cgi-bin/" f = true /\
  exists sbuf,
    Tiny.stat w f = Some sbuf /\
    Tiny.st_isreg sbuf = true /\ Tiny.st_ixusr sbuf = true.
Proof.
  unfold Tiny.serve.
  destruct (rio_readlineb (Tiny.client_in w) MAXLINE) as [[buf rio]|];
    [|intros []].
  destruct (parser_parse_line parser_new buf) as [p st].
  destruct (negb (parser_state_eqb st REQUEST)).
  { intros H. apply tiny_clienterror_writes in H as (d & H). discriminate. }
  destruct (parser_retrieve p METHOD) as [method|]; [|intros []].
  destruct (negb (method =? "GET")).
  { intros H. apply tiny_clienterror_writes in H as (d & H). discriminate. }
  rewrite read_requesthdrs_spec.
  set (page := Tiny.clienterror w connfd "400" "Bad Request"
                 "Tiny could not parse request headers").
  assert (Hpage : ~ In (Tiny.Cgi fd f cgiargs) page).
  { intros H. apply tiny_clienterror_writes in H as (d & H). discriminate. }
  destruct (client_headers (S (String.length rio)) p rio) as [[hs []] rest];
    cbn [fst]; try (intros []); try (intros H; now apply Hpage in H).
  destruct (parser_retrieve p PATH) as [path|]; [|intros []].
  destruct (Tiny.parse_path path) as [[result filename] args] eqn:Epath.
  assert (Hno : forall e s l,
            ~ In (Tiny.Cgi fd f cgiargs)
                ([Tiny.Stat filename] ++ Tiny.clienterror w connfd e s l)).
  { intros e s l [H|H]; [discriminate|].
    apply tiny_clienterror_writes in H as (d & H). discriminate. }
  destruct result; cbn [Tiny.parse_result_eqb fst app].
  - intros H. apply tiny_clienterror_writes in H as (d & H). discriminate.
  - destruct (Tiny.stat w filename) as [sbuf|];
      [|intros H; now apply Hno in H].
    destruct (negb (Tiny.st_isreg sbuf) || negb (Tiny.st_irusr sbuf));
      [intros H; now apply Hno in H|].
    intros [H|H]; [discriminate|]. exfalso. revert H.
    unfold Tiny.serve_static.
    destruct (MAXBUF <=? _)%nat; [intros []|].
    destruct (negb (Tiny.client_up w)); [simpl; intuition discriminate|].
    destruct (Tiny.open_file w filename <? 0)%Z;
      [simpl; intuition discriminate|].
    destruct (Tiny.mmap w _ _); simpl; intuition discriminate.
  - destruct (Tiny.stat w filename) as [sbuf|] eqn:Es;
      [|intros H; now apply Hno in H].
    destruct (Tiny.st_isreg sbuf) eqn:Ereg; cbn [negb orb];
      [|intros H; now apply Hno in H].
    destruct (Tiny.st_ixusr sbuf) eqn:Ex; cbn [negb];
      [|intros H; now apply Hno in H].
    intros [H|H]; [discriminate|]. revert H.
    unfold Tiny.serve_dynamic.
    destruct (MAXLINE <=? _)%nat; [intros []|].
    destruct (negb (Tiny.client_up w)); [simpl; intuition discriminate|].
    destruct (negb (Tiny.fork_ok w)); [simpl; intuition discriminate|].
    simpl. intros [H|[H|[]]]; [discriminate|].
    inversion H; subst fd f cgiargs.
    split; [reflexivity|].
    split; [exact (parse_path_dynamic_prefix _ _ _ Epath)|].
    now exists sbuf.
Qed.

(** X21.  [serve] never closes the connection it serves, and the round of
    [main] that called it closes it exactly once afterwards, on every run
    that stays defined (no file being opened at the descriptor of the
    connection). *)
Theorem connection_closed_once :
  snd (Tiny.serve w connfd) <> Fault ->
  (forall f, Tiny.open_file w f <> connfd) ->
  Tiny.closes connfd (fst (Tiny.serve w connfd)) = 0 /\
  Tiny.closes connfd (fst (Tiny.serve_and_close w connfd)) = 1.
Proof.
  intros Hnf Hopen.
  assert (Hc : Tiny.closes connfd (fst (Tiny.serve w connfd)) = 0).
  { destruct serve_cases
      as [(_ & _ & Hc)|(path & result & filename & cgiargs & t & t' & _ & _ &
                        Hs & _ & _ & Hc & Ht')]; [exact Hc|].
    rewrite Hs. cbn [fst]. rewrite tiny_closes_app, Hc. cbn [Tiny.closes].
    destruct Ht' as [(_ & _ & Hq)|[(_ & sbuf & _ & _ & _ & ->)|
                                   (_ & sbuf & _ & _ & _ & ->)]].
    - exact Hq.
    - now apply serve_static_closes.
    - apply serve_dynamic_quiet. }
  split; [exact Hc|]. unfold Tiny.serve_and_close.
  assert (Hfed := serve_fed).
  destruct (Tiny.serve w connfd) as [t [[]| |]]; cbn [fst snd] in *;
    try congruence.
  rewrite tiny_closes_app, Hc. simpl. now rewrite Z.eqb_refl.
Qed.

End TinyServe.

Lemma pd_reads_back (n : Z) :
  option_map Z.of_int (NilEmpty.int_of_string (Tiny.pd n)) = Some n.
Proof.
  unfold Tiny.pd. rewrite NilEmpty.isi. simpl. now rewrite DecimalZ.of_to.
Qed.

Lemma int_of_off_t_small (n : Z) :
  (0 <= n < 2 ^ 31)%Z -> Tiny.int_of_off_t n = n.
Proof.
  intros H. unfold Tiny.int_of_off_t.
  change (2 ^ 31)%Z with 2147483648%Z in *.
  change (2 ^ 32)%Z with 4294967296%Z.
  rewrite Z.mod_small by lia. lia.
Qed.

Section TinyRequest.

Context {limits : csapp_limits} {parser : http_parser}.
Variable w : Tiny.site.
Variable connfd : Z.

Variables (buf rio : string) (p : parser_t).
Hypothesis Hread : rio_readlineb (Tiny.client_in w) MAXLINE = Some (buf, rio).
Hypothesis Hline : parser_parse_line parser_new buf = (p, REQUEST).
Hypothesis Hmethod : parser_retrieve p METHOD = Some "GET".
Variables (hs : list header_t) (s : stop) (rest : string).
Hypothesis Hheaders :
  client_headers (S (String.length rio)) p rio = (hs, s, rest).

(** X22.  A GET request whose header section ends with the stream, without
    the blank line, gets no answer from [serve]: nothing is written to the
    client and no file is looked up.  (The proxy ends every request it sends
    with the blank line.) *)
Theorem serve_needs_blank_line :
  s = AtEof ->
  Tiny.serve w connfd = ([], Ok tt).
Proof.
  intros Hs. unfold Tiny.serve. rewrite Hread, Hline.
  cbn [parser_state_eqb negb]. rewrite Hmethod.
  change ("GET" =? "GET") with true. cbn [negb].
  rewrite read_requesthdrs_spec, Hheaders, Hs. reflexivity.
Qed.

Variables (path filename cgiargs : string) (sbuf : Tiny.stat_t) (srcp : string).
Hypothesis Hpath : parser_retrieve p PATH = Some path.
Hypothesis Hparse :
  Tiny.parse_path path = (Tiny.PARSE_STATIC, filename, cgiargs).
Hypothesis Hstat : Tiny.stat w filename = Some sbuf.

(** X23.  A GET request with its blank line, for a path taken for static
    content whose file [stat] finds regular, readable and smaller than 2^31
    bytes, with a client that takes the writes, a file that opens and maps,
    and headers that fit [MAXBUF]: [serve] looks the file up, writes the
    response headers (status 200, the size [stat] gave as Content-Length, the
    type of [get_filetype] as Content-Type), opens and maps the file, closes
    its descriptor, writes the mapped bytes and unmaps, in this order and
    nothing else. *)
Theorem static_file_is_served :
  s = AtBlank ->
  Tiny.st_isreg sbuf = true ->
  Tiny.st_irusr sbuf = true ->
  (0 <= Tiny.st_size sbuf < 2 ^ 31)%Z ->
  Tiny.client_up w = true ->
  (0 <= Tiny.open_file w filename)%Z ->
  Tiny.mmap w (Tiny.open_file w filename) (Tiny.st_size sbuf) = Some srcp ->
  String.length
    (Tiny.static_headers (Tiny.st_size sbuf) (Tiny.get_filetype filename))
    < MAXBUF ->
  let headers :=
    cat ["HTTP/1.0 200 OK"; CRLF;
         "Server: Tiny Web Server"; CRLF;
         "Connection: close"; CRLF;
         "Content-Length: "; Tiny.pd (Tiny.st_size sbuf); CRLF;
         "Content-Type: "; Tiny.get_filetype filename; CRLF; CRLF] in
  Tiny.serve w connfd =
    ([Tiny.Stat filename;
      Tiny.Write connfd headers;
      Tiny.Open filename;
      Tiny.Mmap (Tiny.open_file w filename) (Tiny.st_size sbuf);
      Tiny.Close (Tiny.open_file w filename);
      Tiny.Write connfd srcp;
      Tiny.Munmap (Tiny.st_size sbuf)],
     Ok tt) /\
  Tiny.written connfd (fst (Tiny.serve w connfd)) = headers ++ srcp /\
  option_map Z.of_int (NilEmpty.int_of_string (Tiny.pd (Tiny.st_size sbuf))) =
    Some (Tiny.st_size sbuf).
Proof.
  intros Hs Hreg Hrd Hsize Hup Hfd Hmap Hfit headers.
  assert (Heq : Tiny.serve w connfd =
    ([Tiny.Stat filename;
      Tiny.Write connfd headers;
      Tiny.Open filename;
      Tiny.Mmap (Tiny.open_file w filename) (Tiny.st_size sbuf);
      Tiny.Close (Tiny.open_file w filename);
      Tiny.Write connfd srcp;
      Tiny.Munmap (Tiny.st_size sbuf)],
     Ok tt)).
  { unfold Tiny.serve. rewrite Hread, Hline.
    cbn [parser_state_eqb negb]. rewrite Hmethod.
    change ("GET" =? "GET") with true. cbn [negb].
    rewrite read_requesthdrs_spec, Hheaders, Hs, Hpath, Hparse.
    cbn [Tiny.parse_result_eqb]. rewrite Hstat, Hreg, Hrd. cbn [negb orb app].
    rewrite (int_of_off_t_small _ Hsize).
    unfold Tiny.serve_static.
    destruct (Nat.leb_spec MAXBUF
                (String.length
                   (Tiny.static_headers (Tiny.st_size sbuf)
                      (Tiny.get_filetype filename)))) as [|_]; [lia|].
    rewrite Hup. cbn [negb].
    destruct (Z.ltb_spec (Tiny.open_file w filename) 0) as [|_]; [lia|].
    rewrite Hmap. reflexivity. }
  split; [exact Heq|]. split; [|apply pd_reads_back].
  rewrite Heq. cbn [fst Tiny.written]. rewrite Z.eqb_refl.
  now rewrite append_nil_r.
Qed.

End TinyRequest.

(** * The further properties at work *)

Ltac run :=
  first [ vm_compute; reflexivity
        | vm_compute; discriminate
        | apply Nat.ltb_lt; vm_compute; reflexivity
        | apply Nat.leb_le; vm_compute; reflexivity
        | split; first [ vm_compute; reflexivity | vm_compute; discriminate ] ].

Lemma get_is_relayed_witness :
  written 4 (fst (doit_8k (calm ex_get "hello") 4)) = "hello".
Proof.
  pose proof (get_is_relayed (limits := csapp_8k) (parser := spec_parser)
                (calm ex_get "hello") 4 ex_get_line ex_get_tail
                (fst (SpecParser.parse_line SpecParser.fresh ex_get_line))
                "example.com" "/index.html" "8080"
                ltac:(run) ltac:(run) ltac:(run) ltac:(run) ltac:(run) ltac:(run)
                ex_get_headers AtBlank "" ltac:(run) ltac:(run)
                ltac:(run) ltac:(run) ltac:(run) ltac:(run))
    as (relayed & _ & H & _).
  exact H.
Defined.

Lemma connect_failure_answers_400_witness :
  closes 4 (fst (thread_8k (lonely ex_get) 4)) = 1.
Proof.
  refine (proj2 (proj2 (proj2
            (connect_failure_answers_400 (limits := csapp_8k)
               (parser := spec_parser) (lonely ex_get) 4 ex_get_line ex_get_tail
               (fst (SpecParser.parse_line SpecParser.fresh ex_get_line))
               "example.com" "/index.html" "8080" _ _ _ _ _ _
               ex_get_headers AtBlank "" _ _ _ _ _ _ _)))); run.
Defined.

Lemma send_failure_gives_up_witness :
  written 4 (fst (doit_8k (deaf ex_get) 4)) = "".
Proof.
  refine (proj2 (proj2
            (send_failure_gives_up (limits := csapp_8k)
               (parser := spec_parser) (deaf ex_get) 4 ex_get_line ex_get_tail
               (fst (SpecParser.parse_line SpecParser.fresh ex_get_line))
               "example.com" "/index.html" "8080" _ _ _ _ _ _
               ex_get_headers AtBlank "" _ _ _ _ _)) _); run.
Defined.

Lemma origin_descriptor_closed_once_witness :
  closes 5 (fst (doit_8k (calm ex_get "hello") 4)) = 1.
Proof.
  refine (proj1
            (origin_descriptor_closed_once (limits := csapp_8k)
               (parser := spec_parser) (calm ex_get "hello") 4
               ex_get_line ex_get_tail
               (fst (SpecParser.parse_line SpecParser.fresh ex_get_line))
               "example.com" "/index.html" "8080" _ _ _ _ _ _
               ex_get_headers AtBlank "" _ _ _)); run.
Defined.

Lemma passed_headers_keep_their_order_witness :
  written 5 (fst (doit_8k (calm ex_get "hello") 4)) =
  cat ["GET "; "/index.html"; " HTTP/1.0"; CRLF;
       "Host: "; "example.com"; ":"; "8080"; CRLF;
       header_user_agent; header_conn; header_proxy] ++
  cat ["host: other"; CRLF; "Accept: */*"; CRLF] ++ CRLF.
Proof.
  refine (passed_headers_keep_their_order (limits := csapp_8k)
            (parser := spec_parser) (calm ex_get "hello") 4
            ex_get_line ex_get_tail
            (fst (SpecParser.parse_line SpecParser.fresh ex_get_line))
            "example.com" "/index.html" "8080" _ _ _ _ _ _
            ex_get_headers AtBlank "" _ _
            (mk_header "host" "other") (mk_header "Accept" "*/*")
            [] [mk_header "Host" "evil"] [mk_header "Connection" "keep-alive"]
            _ _ _ _ _); run.
Defined.

Lemma dial_is_decided_by_request_line_witness :
  connects (fst (doit_8k (calm ex_get "hello") 4)) = [("example.com", "8080")].
Proof.
  refine (proj1
            (dial_is_decided_by_request_line (limits := csapp_8k)
               (parser := spec_parser) (calm ex_get "hello") 4
               "example.com" "8080" _)).
  vm_compute. left. reflexivity.
Defined.

Lemma thread_closes_by_dial_witness :
  closes 4 (fst (thread_8k (calm ex_get "hello") 4)) =
  2 - List.length (connects (fst (doit_8k (calm ex_get "hello") 4))).
Proof.
  refine (thread_closes_by_dial (limits := csapp_8k) (parser := spec_parser)
            (calm ex_get "hello") 4 _ _).
  - run.
  - intros host port _. discriminate.
Defined.

Lemma doit_defined_iff_witness :
  String.length (outbound "/index.html" "example.com" "8080" ex_get_headers)
  < MAXBUF (csapp_limits := csapp_8k).
Proof.
  refine (proj2 (proj2 (proj2 (proj1
            (doit_defined_iff (limits := csapp_8k) (parser := spec_parser)
               (calm ex_get "hello") 4 ex_get_line ex_get_tail
               (fst (SpecParser.parse_line SpecParser.fresh ex_get_line))
               "example.com" "/index.html" "8080" _ _ _ _ _ _
               ex_get_headers AtBlank "" _) _)))); run.
Defined.

Lemma long_request_overruns_witness :
  snd (doit_8k (calm ex_long "hello") 4) = Fault.
Proof.
  refine (long_request_overruns (limits := csapp_8k) (parser := spec_parser)
            (calm ex_long "hello") 4 ex_long_line CRLF
            (fst (SpecParser.parse_line SpecParser.fresh ex_long_line))
            (blob (81 * 100)) "/" "80" _ _ _ _ _ _ _); run.
Defined.

Lemma bytes_after_blank_line_are_ignored_witness :
  exists consumed,
    client_in (calm ex_get_body "hello") = consumed ++ "name=value" /\
    forall rest',
      doit_8k (mk_world (consumed ++ rest') true (fun _ _ => 5%Z) true
                 (fun _ => "hello")) 4 =
      doit_8k (calm ex_get_body "hello") 4.
Proof.
  refine (bytes_after_blank_line_are_ignored (limits := csapp_8k)
            (parser := spec_parser) (calm ex_get_body "hello") 4
            ex_get_line (ex_get_tail ++ "name=value")
            (fst (SpecParser.parse_line SpecParser.fresh ex_get_line))
            "example.com" "/index.html" "8080" _ _ _ _ _ _
            ex_get_headers "name=value" _ _); run.
Defined.

Lemma parse_path_static_witness :
  Tiny.strstr "./index.html" "/../" = false.
Proof.
  refine (proj1 (proj2 (proj2
            (parse_path_static (limits := csapp_8k) "index.html"
               "./index.html" "" _)))); run.
Defined.

Lemma parse_path_traversal_check_witness :
  Tiny.parse_path (limits := csapp_8k) "../notes.txt" =
    (Tiny.PARSE_ERROR, "", "") /\
  Tiny.parse_path (limits := csapp_8k) "pub/.." =
    (Tiny.PARSE_STATIC, "./pub/..", "").
Proof.
  split.
  - refine (parse_path_traversal_check (limits := csapp_8k) "../notes.txt" _ _);
      run.
  - refine (parse_path_traversal_check (limits := csapp_8k) "pub/.." _ _); run.
Defined.

Lemma parse_path_dynamic_witness :
  String.prefix "./cgi-bin/" "./cgi-bin/adder" = true.
Proof.
  refine (proj1
            (parse_path_dynamic (limits := csapp_8k) "cgi-bin/adder?1&2"
               "./cgi-bin/adder" "1&2" _)); run.
Defined.

Lemma cgi_paths_are_not_checked_witness :
  Tiny.parse_path (limits := csapp_8k) ("cgi-bin/" ++ "../../bin/sh") =
  (Tiny.PARSE_DYNAMIC, "./cgi-bin/" ++ "../../bin/sh", "").
Proof.
  refine (proj1
            (cgi_paths_are_not_checked (limits := csapp_8k) "../../bin/sh"
               _ _)); run.
Defined.

Lemma directory_is_served_as_home_page_witness :
  Tiny.get_filetype "./home.html" = "text/html".
Proof.
  refine (proj2
            (directory_is_served_as_home_page (limits := csapp_8k) ""
               "./home.html" "" _ _)); run.
Defined.

Lemma serve_file_names_witness :
  String.prefix "./" "./home.html" = true.
Proof.
  refine (proj1
            (serve_file_names (limits := csapp_8k) (parser := bare_parser)
               (ex_site ex_tiny_home) 4 "./home.html" _)).
  vm_compute. left. reflexivity.
Defined.

Lemma serve_opens_only_checked_files_witness :
  Tiny.strstr "./home.html" "/../" = false.
Proof.
  refine (proj1
            (serve_opens_only_checked_files (limits := csapp_8k)
               (parser := bare_parser) (ex_site ex_tiny_home) 4
               "./home.html" _)).
  vm_compute. left. reflexivity.
Defined.

Lemma connection_closed_once_witness :
  Tiny.closes 4
    (fst (Tiny.serve_and_close (limits := csapp_8k) (parser := bare_parser)
            (ex_site ex_tiny_home) 4)) = 1.
Proof.
  refine (proj2
            (connection_closed_once (limits := csapp_8k)
               (parser := bare_parser) (ex_site ex_tiny_home) 4 _ _)).
  - run.
  - intros f. discriminate.
Defined.

Lemma serve_needs_blank_line_witness :
  Tiny.serve (limits := csapp_8k) (parser := bare_parser)
    (ex_site ex_tiny_cut) 4 = ([], Ok tt).
Proof.
  refine (serve_needs_blank_line (limits := csapp_8k) (parser := bare_parser)
            (ex_site ex_tiny_cut) 4 ex_tiny_line
            (cat ["Host: example.com"; CRLF])
            (fst (SpecParser.parse_line SpecParser.fresh ex_tiny_line))
            _ _ _ [mk_header "Host" "example.com"] AtEof "" _ _); run.
Defined.

Lemma static_file_is_served_witness :
  Tiny.written 4
    (fst (Tiny.serve (limits := csapp_8k) (parser := bare_parser)
            (ex_site ex_tiny_home) 4)) =
  cat ["HTTP/1.0 200 OK"; CRLF;
       "Server: Tiny Web Server"; CRLF;
       "Connection: close"; CRLF;
       "Content-Length: 12"; CRLF;
       "Content-Type: text/html"; CRLF; CRLF] ++ "Hello, tiny!".
Proof.
  refine (proj1 (proj2
            (static_file_is_served (limits := csapp_8k) (parser := bare_parser)
               (ex_site ex_tiny_home) 4 ex_tiny_line ex_tiny_tail
               (fst (SpecParser.parse_line SpecParser.fresh ex_tiny_line))
               _ _ _ [mk_header "Host" "example.com"] AtBlank "" _
               "" "./home.html" "" (Tiny.mk_stat true true false 12)
               "Hello, tiny!" _ _ _ _ _ _ _ _ _ _ _))); run.
Defined.

Lemma serve_runs_only_checked_programs_witness :
  String.prefix "./cgi-bin/" "./cgi-bin/adder" = true /\
  In (Tiny.Cgi 4 "./cgi-bin/adder" "1&2")
     (fst (Tiny.serve (limits := csapp_8k) (parser := bare_parser)
             (ex_site ex_tiny_cgi) 4)).
Proof.
  assert (H : In (Tiny.Cgi 4 "./cgi-bin/adder" "1&2")
                 (fst (Tiny.serve (limits := csapp_8k) (parser := bare_parser)
                         (ex_site ex_tiny_cgi) 4))).
  { vm_compute. right. right. left. reflexivity. }
  split; [|exact H].
  exact (proj1 (proj2
           (serve_runs_only_checked_programs (limits := csapp_8k)
              (parser := bare_parser) (ex_site ex_tiny_cgi) 4
              4 "./cgi-bin/adder" "1&2" H))).
Defined.
